(** * cosmoslib.mcmc: the MCMC driver class

    A shallow embedding of [cosmoslib/mcmc.py].  The class [MCMC] keeps two
    parameter stores, evaluates a flat prior and a posterior over an external
    cosmology model, and hands the sampling itself to emcee.

    Numbers are IEEE binary64 values ([spec_float] with precision 53 and
    maximal exponent 1024), which is what Python's [float] and numpy's
    [float64] are; [np.inf] and NaN are values of that type.  Python
    dictionaries keep their insertion order, so they are association lists
    here.  The cosmology object, emcee and numpy's random generator are
    interfaces (type classes); a method of [MCMC] is a computation over the
    object's attributes, the state of those libraries and a log of the
    calls and prints it makes, and it ends in a value or in a raised
    exception. *)

From Stdlib Require Import ZArith Lia SpecFloat.
From stdpp Require Import base option list strings.

Local Open Scope Z_scope.

(** ** Numbers: binary64 *)

Module Float64.

Definition prec : Z := 53.
Definition emax : Z := 1024.
Definition float : Type := spec_float.

Definition zero : float := S754_zero false.
Definition inf : float := S754_infinity false.
Definition neg_inf : float := S754_infinity true.
Definition nan : float := S754_nan.

Definition add : float -> float -> float := SFadd prec emax.
Definition mul : float -> float -> float := SFmul prec emax.

(** The comparison operators of Python on floats: [<], [<=], [==], [>].
    Each is false as soon as one side is NaN. *)
Definition ltb : float -> float -> bool := SFltb.
Definition leb : float -> float -> bool := SFleb.
Definition eqb : float -> float -> bool := SFeqb.
Definition gtb (x y : float) : bool :=
  match SFcompare x y with Some Gt => true | _ => false end.

Definition isnan (x : float) : bool :=
  match x with S754_nan => true | _ => false end.

(** [np.isfinite] *)
Definition isfinite (x : float) : bool :=
  match x with S754_zero _ | S754_finite _ _ _ => true | _ => false end.

(** The float nearest to an integer, to write literals. *)
Definition of_Z (z : Z) : float := binary_normalize prec emax z 0 false.

End Float64.

Import Float64.

(** ** Python values, exceptions and dictionaries *)

(** The exceptions this module can meet.  [Foreign] is an exception raised
    inside another library (or the interpreter: [KeyboardInterrupt] and
    [SystemExit] do not derive from [Exception]); the others are Python's
    own and all derive from [Exception]. *)
Inductive exn : Type :=
| IndexError
| KeyError (k : string)
| AttributeError
| ValueError
| UnboundLocalError (name : string)
| Foreign (cls : string) (derives_Exception : bool).

Definition isinstance_Exception (e : exn) : bool :=
  match e with
  | Foreign _ b => b
  | _ => true
  end.

Inductive outcome (A : Type) : Type :=
| Return (a : A)
| Raise (e : exn).
Arguments Return {A} a.
Arguments Raise {A} e.

#[global] Instance outcome_ret : MRet outcome := fun A a => Return a.
#[global] Instance outcome_bind : MBind outcome := fun A B f m =>
  match m with
  | Return a => f a
  | Raise e => Raise e
  end.

(** A value of a configuration mapping. *)
Inductive pyval : Type :=
| PyNone
| PyFloat (x : float)
| PyStr (s : string)
| PyList (l : list float)
| PyTuple (l : list float).

(** A [dict] with string keys, in insertion order: assigning to a key that
    is present keeps its place. *)
Definition dict (V : Type) : Type := list (string * V).

Fixpoint dict_get {V} (k : string) (d : dict V) : option V :=
  match d with
  | [] => None
  | (k', v) :: d' => if String.eqb k' k then Some v else dict_get k d'
  end.

Fixpoint dict_set {V} (k : string) (v : V) (d : dict V) : dict V :=
  match d with
  | [] => [(k, v)]
  | (k', v') :: d' =>
      if String.eqb k' k then (k, v) :: d' else (k', v') :: dict_set k v d'
  end.

Definition dict_keys {V} (d : dict V) : list string := d.*1.

(** [d[k]] *)
Definition subscript {V} (d : dict V) (k : string) : outcome V :=
  match dict_get k d with
  | Some v => Return v
  | None => Raise (KeyError k)
  end.

(** [l[i]] for [0 <= i] *)
Definition index {A} (l : list A) (i : nat) : outcome A :=
  match l !! i with
  | Some a => Return a
  | None => Raise IndexError
  end.

(** [d = {}; for i, k in enumerate(keys): d[k] = values[i]], with [i]
    starting at [i0] *)
Fixpoint enumerate_into (i0 : nat) (keys : list string) (values : list float)
    (d : dict float) : outcome (dict float) :=
  match keys with
  | [] => Return d
  | k :: keys' =>
      v ← index values i0;
      enumerate_into (S i0) keys' values (dict_set k v d)
  end.

(** [a.argmax()] of numpy on a one-dimensional array: the first index of the
    greatest entry, a NaN counting as the greatest; an empty array raises. *)
Fixpoint argmax_from (mp : float) (best i : nat) (l : list float) : nat :=
  match l with
  | [] => best
  | x :: l' =>
      if leb x mp then argmax_from mp best (S i) l'
      else if isnan x then i
      else argmax_from x i (S i) l'
  end.

Definition argmax (l : list float) : outcome nat :=
  match l with
  | [] => Raise ValueError
  | x :: l' => Return (if isnan x then 0%nat else argmax_from x 0 1 l')
  end.

(** ** What the program prints and whom it calls *)

Inductive message : Type :=
| MsgModelError (e : exn)
    (* "%s occurred, loglike=-np.inf" % type(e) *)
| MsgLoglike (theta : list float) (like : float)
    (* "Parameter: %s\t loglike: %.2f" % (theta, like) *)
| MsgWalkers (n : Z)
    (* "Warning: n_walkers too small, use %d instead..." % n *)
| MsgInitialSteps (n : Z).
    (* "Initial number of steps: {0}".format(n) *)

Inductive event : Type :=
| Stdout (m : message)
| Traceback (e : exn)
| CallSetModelParams (d : dict pyval)
| CallFullRun
| CallRandn (n : nat)
| CallHDFBackend (file : option string)
| CallIteration
| CallGetChain
| CallReset (nwalkers ndim : Z)
| CallEnsembleSampler (nwalkers ndim : Z)
| CallRunMcmc (pos0 : list (list float)) (N : Z) (kwargs : dict pyval).

(** ** The libraries around the class *)

(** The cosmology object: [set_model_params(mapping)] and [full_run()],
    each of which may change the object and may raise. *)
Class Cosmology (C T : Type) : Type := {
  set_model_params : dict pyval -> C -> outcome unit * C;
  full_run : C -> outcome T * C
}.

(** What [sampler.run_mcmc] does, seen from this module: it asks for the
    log-probability of a point, goes on with the answer (a value or the
    exception the call raised), and after finitely many questions ends with
    a new state of the library. *)
Inductive sampling (E : Type) : Type :=
| Finished (r : outcome unit) (e : E)
| Evaluate (theta : list float) (k : outcome float -> sampling E).
Arguments Finished {E} r e.
Arguments Evaluate {E} theta k.

(** emcee: [B] a backend object, [Sm] a sampler object, [E] the state they
    share (the checkpoint file and the chain in it).  A chain is indexed by
    step, then walker, then dimension. *)
Class Emcee (B Sm E : Type) : Type := {
  HDFBackend : option string -> E -> outcome B * E;
  iteration : B -> E -> outcome Z * E;
  get_chain : B -> E -> outcome (list (list (list float))) * E;
  reset : B -> Z -> Z -> E -> outcome unit * E;
  EnsembleSampler : Z -> Z -> B -> E -> outcome Sm * E;
  run_mcmc : Sm -> list (list float) -> Z -> dict pyval -> E -> sampling E;
  flatlnprobability : Sm -> E -> outcome (list float);
  flatchain : Sm -> E -> outcome (list (list float))
}.

(** [np.random.randn(n)]: [n] draws of a standard normal variable, each a
    finite number. *)
Class Random (R : Type) : Type := {
  randn : nat -> R -> list float * R;
  randn_length n r : length (randn n r).1 = n;
  randn_finite n r : Forall (fun x => isfinite x = true) (randn n r).1
}.

(** ** The class *)

Section MCMC.

Context {C T B Sm E R : Type}.
Context `{!Cosmology C T, !Emcee B Sm E, !Random R}.

(** A likelihood is a callable on the theory spectra ([None] when the model
    run failed). *)
Definition likelihood : Type := option T -> outcome float.

(** The attributes of an [MCMC] object.  [_counter] is absent until [run]
    sets it. *)
Record MCMC : Type := mkMCMC {
  n_walkers : Z;
  initial_delta : float;
  sampler : option Sm;
  cosmology : option C;
  base_params : dict pyval;
  fit_params : dict (list float);
  fit_keys : list string;
  backend_file : option string;
  likelihoods : list likelihood;
  _counter : option Z
}.

(** [MCMC(n_walkers, initial_delta, backend_file)] *)
Definition MCMC_init (n_walkers : Z) (initial_delta : float)
    (backend_file : option string) : MCMC :=
  {| n_walkers := n_walkers; initial_delta := initial_delta;
     sampler := None; cosmology := None;
     base_params := []; fit_params := []; fit_keys := [];
     backend_file := backend_file; likelihoods := []; _counter := None |}.

Definition with_n_walkers (v : Z) (s : MCMC) : MCMC :=
  mkMCMC v (initial_delta s) (sampler s) (cosmology s) (base_params s)
    (fit_params s) (fit_keys s) (backend_file s) (likelihoods s) (_counter s).
Definition with_sampler (v : option Sm) (s : MCMC) : MCMC :=
  mkMCMC (n_walkers s) (initial_delta s) v (cosmology s) (base_params s)
    (fit_params s) (fit_keys s) (backend_file s) (likelihoods s) (_counter s).
Definition with_cosmology (v : option C) (s : MCMC) : MCMC :=
  mkMCMC (n_walkers s) (initial_delta s) (sampler s) v (base_params s)
    (fit_params s) (fit_keys s) (backend_file s) (likelihoods s) (_counter s).
Definition with_base_params (v : dict pyval) (s : MCMC) : MCMC :=
  mkMCMC (n_walkers s) (initial_delta s) (sampler s) (cosmology s) v
    (fit_params s) (fit_keys s) (backend_file s) (likelihoods s) (_counter s).
Definition with_fit_params (v : dict (list float)) (s : MCMC) : MCMC :=
  mkMCMC (n_walkers s) (initial_delta s) (sampler s) (cosmology s)
    (base_params s) v (fit_keys s) (backend_file s) (likelihoods s) (_counter s).
Definition with_fit_keys (v : list string) (s : MCMC) : MCMC :=
  mkMCMC (n_walkers s) (initial_delta s) (sampler s) (cosmology s)
    (base_params s) (fit_params s) v (backend_file s) (likelihoods s) (_counter s).
Definition with_likelihoods (v : list likelihood) (s : MCMC) : MCMC :=
  mkMCMC (n_walkers s) (initial_delta s) (sampler s) (cosmology s)
    (base_params s) (fit_params s) (fit_keys s) (backend_file s) v (_counter s).
Definition with_counter (v : option Z) (s : MCMC) : MCMC :=
  mkMCMC (n_walkers s) (initial_delta s) (sampler s) (cosmology s)
    (base_params s) (fit_params s) (fit_keys s) (backend_file s)
    (likelihoods s) v.

(** *** Computations *)

(** The object, the state of emcee and of the random generator, and the log
    of prints and calls, oldest first. *)
Record World : Type := mkWorld {
  self : MCMC;
  emcee : E;
  rng : R;
  log : list event
}.

(** A method body: it ends in a value or an exception, and what it did to
    the world stays done either way. *)
Definition M (A : Type) : Type := World -> outcome A * World.

#[global] Instance M_ret : MRet M := fun A a w => (Return a, w).
#[global] Instance M_bind : MBind M := fun A B f m w =>
  match m w with
  | (Return a, w') => f a w'
  | (Raise e, w') => (Raise e, w')
  end.

Definition raise {A} (e : exn) : M A := fun w => (Raise e, w).
Definition lift {A} (o : outcome A) : M A := fun w => (o, w).
Definition get_self : M MCMC := fun w => (Return (self w), w).
Definition get_emcee : M E := fun w => (Return (emcee w), w).
Definition modify_self (f : MCMC -> MCMC) : M unit := fun w =>
  (Return (), mkWorld (f (self w)) (emcee w) (rng w) (log w)).
Definition emit (ev : event) : M unit := fun w =>
  (Return (), mkWorld (self w) (emcee w) (rng w) (log w ++ [ev])).
(** [try: m] with the exception, if any, handed to the handler *)
Definition attempt {A} (m : M A) : M (outcome A) := fun w =>
  let (r, w') := m w in (Return r, w').
(** A call into emcee. *)
Definition emcee_call {A} (ev : event) (f : E -> outcome A * E) : M A := fun w =>
  let (r, e') := f (emcee w) in
  (r, mkWorld (self w) e' (rng w) (log w ++ [ev])).

(** [self.cosmology.set_model_params(d)] *)
Definition call_set_model_params (d : dict pyval) : M unit :=
  s ← get_self;
  match cosmology s with
  | None => raise AttributeError
  | Some cm =>
      emit (CallSetModelParams d);;
      let (r, cm') := set_model_params d cm in
      modify_self (with_cosmology (Some cm'));;
      lift r
  end.

(** [self.cosmology.full_run()] *)
Definition call_full_run : M T :=
  s ← get_self;
  match cosmology s with
  | None => raise AttributeError
  | Some cm =>
      emit CallFullRun;;
      let (r, cm') := full_run cm in
      modify_self (with_cosmology (Some cm'));;
      lift r
  end.

(** [np.random.randn(n)] *)
Definition call_randn (n : nat) : M (list float) := fun w =>
  let (xs, r') := randn n (rng w) in
  (Return xs, mkWorld (self w) (emcee w) r' (log w ++ [CallRandn n])).

(** *** Methods *)

(** The body of the loop of [set_params] for one key. *)
Definition classify (s : MCMC) (kv : string * pyval) : MCMC :=
  match kv.2 with
  | PyList l => with_fit_params (dict_set kv.1 l (fit_params s)) s
  | PyTuple l => with_fit_params (dict_set kv.1 l (fit_params s)) s
  | v => with_base_params (dict_set kv.1 v (base_params s)) s
  end.

Definition set_params (params : dict pyval) : M unit :=
  modify_self (fun s => foldl classify s params);;
  modify_self (fun s => with_fit_keys (dict_keys (fit_params s)) s);;
  s ← get_self;
  match cosmology s with
  | Some _ => call_set_model_params (base_params s)
  | None => mret ()
  end.

(** The loop of [lnprior] from index [i] on. *)
Fixpoint lnprior_from (fp : dict (list float)) (i : nat) (keys : list string)
    (theta : list float) : outcome float :=
  match keys with
  | [] => Return zero
  | k :: keys' =>
      lower ← (b ← subscript fp k; index b 0);
      fid ← (b ← subscript fp k; index b 1);
      upper ← (b ← subscript fp k; index b 2);
      p ← index theta i;
      if ltb p lower then Return neg_inf
      else if gtb p upper then Return neg_inf
      else lnprior_from fp (S i) keys' theta
  end.

Definition lnprior (s : MCMC) (theta : list float) : outcome float :=
  lnprior_from (fit_params s) 0 (fit_keys s) theta.

Definition add_likelihood (f : likelihood) : M unit :=
  modify_self (fun s => with_likelihoods (likelihoods s ++ [f]) s).

Definition set_cosmology (cm : C) : M unit :=
  modify_self (with_cosmology (Some cm));;
  s ← get_self;
  call_set_model_params (base_params s).

(** A mapping of numbers as a mapping of values. *)
Definition to_params (d : dict float) : dict pyval := prod_map id PyFloat <$> d.

(** Returns the pair [(results, False)], or [(None, True)] after an
    exception of the model run. *)
Definition generate_theory (theta : list float) : M (option T * bool) :=
  s ← get_self;
  model_params ← lift (enumerate_into 0 (fit_keys s) theta []);
  call_set_model_params (to_params model_params);;
  r ← attempt call_full_run;
  match r with
  | Return results => mret (Some results, false)
  | Raise e =>
      if isinstance_Exception e then
        emit (Stdout (MsgModelError e));;
        emit (Traceback e);;
        mret (None, true)
      else raise e
  end.

(** The loop [for like_func in self.likelihoods: like += like_func(ps_theory)]
    over the local variable [like], [None] while it is unbound.  The
    augmented assignment reads [like] before it calls [like_func]. *)
Fixpoint accumulate (fs : list likelihood) (ps_theory : option T)
    (like : option float) : outcome (option float) :=
  match fs with
  | [] => Return like
  | like_func :: fs' =>
      match like with
      | None => Raise (UnboundLocalError "like")
      | Some acc =>
          x ← like_func ps_theory;
          accumulate fs' ps_theory (Some (add acc x))
      end
  end.

(** Reading a local variable. *)
Definition read_local (name : string) (v : option float) : outcome float :=
  match v with
  | Some x => Return x
  | None => Raise (UnboundLocalError name)
  end.

Definition lnprob (theta : list float) : M float :=
  '(ps_theory, err) ← generate_theory theta;
  if err : bool then mret neg_inf
  else
    s ← get_self;
    prior ← lift (lnprior s theta);
    if isfinite prior then
      (* no assignment to [like] comes before the loop *)
      like ← lift (accumulate (likelihoods s) ps_theory None);
      v ← lift (read_local "like" like);
      emit (Stdout (MsgLoglike theta v));;
      v' ← lift (read_local "like" like);
      mret (add prior v')
    else mret neg_inf.

(** [[self.fit_params[key][1] for key in self.fit_keys]] *)
Fixpoint fiducials (fp : dict (list float)) (keys : list string)
    : outcome (list float) :=
  match keys with
  | [] => Return []
  | key :: keys' =>
      b ← subscript fp key;
      x ← index b 1;
      xs ← fiducials fp keys';
      Return (x :: xs)
  end.

(** One turn of the loop of [generate_initial_pos]: [pos] is the array of
    the fiducial values, a float array, and [randn(ndim)*delta*pos] is
    added to it in place, component by component. *)
Definition initial_pos : M (list float) :=
  s ← get_self;
  pos ← lift (fiducials (fit_params s) (fit_keys s));
  r ← call_randn (length (fit_keys s));
  s ← get_self;
  mret (zip_with add pos
          (zip_with mul ((fun x => mul x (initial_delta s)) <$> r) pos)).

Fixpoint initial_pos_loop (n : nat) (pos0 : list (list float))
    : M (list (list float)) :=
  match n with
  | O => mret pos0
  | S n' => pos ← initial_pos; initial_pos_loop n' (pos0 ++ [pos])
  end.

Definition generate_initial_pos : M (list (list float)) :=
  s ← get_self;
  initial_pos_loop (Z.to_nat (n_walkers s)) [].

(** [samples.T[:,:,-1].T]: the walkers' positions at the last step. *)
Definition last_positions (samples : list (list (list float)))
    : outcome (list (list float)) :=
  match last samples with
  | Some p => Return p
  | None => Raise IndexError
  end.

(** The calls of [self.lnprob] that a run of the sampler makes. *)
Fixpoint drive (t : sampling E) : M unit :=
  match t with
  | Finished r e => fun w => (r, mkWorld (self w) e (rng w) (log w))
  | Evaluate theta k => r ← attempt (lnprob theta); drive (k r)
  end.

(** [sampler.run_mcmc(pos0, N, **kwargs)] *)
Definition call_run_mcmc (smp : Sm) (pos0 : list (list float)) (N : Z)
    (kwargs : dict pyval) : M unit :=
  emit (CallRunMcmc pos0 N kwargs);;
  e ← get_emcee;
  drive (run_mcmc smp pos0 N kwargs e).

(** The argument [pos0] is assigned to on both branches before it is read. *)
Definition run (N : Z) (pos0 : option (list (list float))) (resume : bool)
    (kwargs : dict pyval) : M (option Sm) :=
  modify_self (with_counter (Some 0));;
  s ← get_self;
  let ndim := Z.of_nat (length (fit_keys s)) in
  (if n_walkers s <? 2 * ndim then
     modify_self (with_n_walkers (2 * ndim));;
     s ← get_self;
     emit (Stdout (MsgWalkers (n_walkers s)))
   else mret ());;
  s ← get_self;
  backend ← emcee_call (CallHDFBackend (backend_file s))
              (HDFBackend (backend_file s));
  pos0 ← (if resume then
            n ← emcee_call CallIteration (iteration backend);
            emit (Stdout (MsgInitialSteps n));;
            samples ← emcee_call CallGetChain (get_chain backend);
            lift (last_positions samples)
          else
            s ← get_self;
            emcee_call (CallReset (n_walkers s) ndim)
              (reset backend (n_walkers s) ndim);;
            generate_initial_pos);
  s ← get_self;
  smp ← emcee_call (CallEnsembleSampler (n_walkers s) ndim)
          (EnsembleSampler (n_walkers s) ndim backend);
  (if 0 <? N then
     modify_self (with_sampler (Some smp));;
     call_run_mcmc smp pos0 N kwargs
   else mret ());;
  s ← get_self;
  mret (sampler s).

Definition reset_params : M unit :=
  modify_self (fun s =>
    with_fit_keys [] (with_fit_params [] (with_base_params [] s))).

Definition get_bf_params : M (dict float) :=
  s ← get_self;
  match sampler s with
  | None => raise AttributeError
  | Some smp =>
      e ← get_emcee;
      lp ← lift (flatlnprobability smp e);
      whmax ← lift (argmax lp);
      e ← get_emcee;
      chain ← lift (flatchain smp e);
      bf_values ← lift (index chain whmax);
      lift (enumerate_into 0 (fit_keys s) bf_values [])
  end.

(** The copy is a new object: [self.cosmology] is left as it was. *)
Definition get_bf_cosmology : M C :=
  bf_params ← get_bf_params;
  s ← get_self;
  match cosmology s with
  | None => raise AttributeError
  | Some cm =>
      let (r, cm') := set_model_params (to_params bf_params) cm in
      lift r;; mret cm'
  end.

End MCMC.

(** ** Specifications *)

(** The predicates the statements below are made of. *)

Section Specification.

Context {C T B Sm E R : Type}.
Context `{!Cosmology C T, !Emcee B Sm E, !Random R}.
Abbreviation MCMC := (@MCMC C T Sm).
Abbreviation World := (@World C T Sm E R).
Abbreviation M := (@M C T Sm E R).
Implicit Types (s : MCMC) (w : World) (theta lp : list float)
  (params : dict pyval).

(** Key [k] is registered with the triple [lower, fid, upper]. *)
Definition registered s (k : string) (lower fid upper : float) : Prop :=
  dict_get k (fit_params s) = Some [lower; fid; upper].

(** [theta] has one component per fit key, and every fit key has its
    triple. *)
Definition aligned s theta : Prop :=
  length theta = length (fit_keys s) /\
  forall k, k ∈ fit_keys s -> exists lower fid upper, registered s k lower fid upper.

(** Component [i] of [theta] is [p], and the bound of the [i]-th fit key is
    [[lower, upper]]. *)
Definition coordinate s theta (i : nat) (p lower upper : float) : Prop :=
  exists k fid,
    fit_keys s !! i = Some k /\ theta !! i = Some p /\
    registered s k lower fid upper.

(** [wp m Q w]: run from [w], [m] ends in an outcome and a world that
    satisfy [Q]. *)
Definition wp {A} (m : M A) (Q : outcome A -> World -> Prop) w : Prop :=
  Q (m w).1 (m w).2.

(** A relation between the world before and the world after that a
    computation keeps, however it ends. *)
Definition keeps (Rel : World -> World -> Prop) {A} (m : M A) : Prop :=
  forall w, Rel w (m w).2.

(** Only the cosmology attribute may differ between [self w] and
    [self w'], and the log has grown by events that satisfy [P]. *)
Definition step (P : event -> Prop) w w' : Prop :=
  with_cosmology (cosmology (self w)) (self w') = self w /\
  exists evs, log w' = log w ++ evs /\ Forall P evs.

(** The events of a model evaluation. *)
Definition model_event (ev : event) : Prop :=
  match ev with
  | Stdout _ | Traceback _ | CallSetModelParams _ | CallFullRun => True
  | _ => False
  end.

(** From [w], [generate_theory theta] gets as far as the model's full
    evaluation, which raises [e]. *)
Definition full_run_raises w theta (e : exn) : Prop :=
  exists cm model_params cm1 cm2,
    cosmology (self w) = Some cm /\
    enumerate_into 0 (fit_keys (self w)) theta [] = Return model_params /\
    set_model_params (to_params model_params) cm = (Return (), cm1) /\
    full_run cm1 = (Raise e, cm2).

(** The model run went through: [generate_theory] returned theory spectra
    and no error flag. *)
Definition model_run_succeeds w theta (ps_theory : option T) w' : Prop :=
  generate_theory theta w = (Return (ps_theory, false), w').

(** [v] is a list or a tuple, with elements [l]. *)
Definition sequence_of (v : pyval) : option (list float) :=
  match v with
  | PyList l | PyTuple l => Some l
  | _ => None
  end.

(** The routing of the entries of [params] by type: a list or a tuple goes
    to the fit store as a list and the base store is left alone at that
    key; any other value goes to the base store and the fit store is left
    alone at that key. *)
Definition routed_by_type params s s' : Prop :=
  forall k v, dict_get k params = Some v ->
    match sequence_of v with
    | Some l =>
        dict_get k (fit_params s') = Some l /\ k ∈ fit_keys s' /\
        dict_get k (base_params s') = dict_get k (base_params s)
    | None =>
        dict_get k (base_params s') = Some v /\
        dict_get k (fit_params s') = dict_get k (fit_params s)
    end.

(** The routing by shape: a list or a tuple of three elements goes to the
    fit store as a list, and every other value, a list or a tuple of
    another length among them, goes to the base store. *)
Definition routed_by_length params s' : Prop :=
  forall k v, dict_get k params = Some v ->
    match sequence_of v with
    | Some l =>
        if decide (length l = 3%nat) then dict_get k (fit_params s') = Some l
        else dict_get k (base_params s') = Some v
    | None => dict_get k (base_params s') = Some v
    end.

(** The walker count [run] works with. *)
Definition walkers_used s : Z :=
  let ndim := Z.of_nat (length (fit_keys s)) in
  if n_walkers s <? 2 * ndim then 2 * ndim else n_walkers s.

(** An event that passes a walker count and a dimension to emcee passes
    [nwalkers] and [ndim]. *)
Definition passes (nwalkers ndim : Z) (ev : event) : Prop :=
  match ev with
  | CallReset n d | CallEnsembleSampler n d => n = nwalkers /\ d = ndim
  | _ => True
  end.

Definition is_run_mcmc (ev : event) : Prop :=
  match ev with
  | CallRunMcmc _ _ _ => True
  | _ => False
  end.

(** How far a call [run N ...] from [w0] has come, when the object is [s]
    and the log is [l]: the walker count is the corrected one, the events so
    far pass it on, the backend was reset if [was_reset] says so, and without
    sampling ([N <= 0]) the sampler attribute is untouched and [run_mcmc] was
    not called. *)
Definition sofar (N : Z) (w0 : World) (was_reset : bool) s (l : list event)
    : Prop :=
  let nwalkers := walkers_used (self w0) in
  let ndim := Z.of_nat (length (fit_keys (self w0))) in
  n_walkers s = nwalkers /\
  exists evs,
    l = log w0 ++ evs /\
    Forall (passes nwalkers ndim) evs /\
    (was_reset = true -> CallReset nwalkers ndim ∈ evs) /\
    (N <= 0 ->
     sampler s = sampler (self w0) /\
     Forall (fun ev => ~ is_run_mcmc ev) evs).

(** The backend file of [w] opens. *)
Definition backend_opens w : Prop :=
  exists backend e',
    HDFBackend (backend_file (self w)) (emcee w) = (Return backend, e').

(** Where a call of [run] ends. *)
Definition run_post (N : Z) (resume : bool) (w0 : World)
    (r : outcome (option Sm)) (w' : World) : Prop :=
  exists b, sofar N w0 b (self w') (log w') /\
    (resume = false -> backend_opens w0 -> b = true) /\
    (N <= 0 -> forall v, r = Return v -> v = sampler (self w0)).

(** [fids] are the fiducial values of the fit parameters, in the order of
    the fit keys. *)
Definition fiducial_values s (fids : list float) : Prop :=
  Forall2 (fun k fid => exists lower upper, registered s k lower fid upper)
    (fit_keys s) fids.

(** [pos] and [fids] are equal component by component, with Python's
    [==]. *)
Definition same_position (pos fids : list float) : Prop :=
  Forall2 (fun p fid => eqb p fid = true) pos fids.

(** [generate_initial_pos] returns one position per walker, each equal to
    [fids]. *)
Definition replicates w (fids : list float) : Prop :=
  exists pos0,
    (generate_initial_pos w).1 = Return pos0 /\
    length pos0 = Z.to_nat (n_walkers (self w)) /\
    Forall (fun pos => same_position pos fids) pos0.

(** [i] is an index at which [lp] attains its maximum [m]: no entry is
    greater than [m], and when [m] is a number every entry is at most [m]
    (numpy takes a NaN for the maximum of an array that has one). *)
Definition attains_max lp (i : nat) : Prop :=
  exists m, lp !! i = Some m /\
    (forall j v, lp !! j = Some v -> ltb m v = false) /\
    (isnan m = false -> forall j v, lp !! j = Some v -> leb v m = true).

(** The components of [theta] before index [i] are there and within the
    bounds of their fit keys, so that the loop of [lnprior] reaches
    index [i]. *)
Definition passes_before s theta (i : nat) : Prop :=
  forall j, (j < i)%nat ->
    exists p lower upper,
      coordinate s theta j p lower upper /\
      leb lower p = true /\ leb p upper = true.

(** The stores are dictionaries (no key twice) and the fit keys are the keys
    of the fit store, in its order. *)
Definition well_formed s : Prop :=
  NoDup (dict_keys (fit_params s)) /\
  NoDup (dict_keys (base_params s)) /\
  fit_keys s = dict_keys (fit_params s).

(** The two stores and the fit keys of [s] and [s'] are the same. *)
Definition same_stores s s' : Prop :=
  fit_params s' = fit_params s /\
  base_params s' = base_params s /\
  fit_keys s' = fit_keys s.

(** Of the object only the cosmology attribute may differ between [w] and
    [w'], and emcee's state and the random generator are as they were. *)
Definition model_only w w' : Prop :=
  with_cosmology (cosmology (self w)) (self w') = self w /\
  emcee w' = emcee w /\ rng w' = rng w.

(** What was configured is kept between [w] and [w']: the stores and the
    fit keys, the likelihoods, the jitter and the backend file. *)
Definition configuration_kept w w' : Prop :=
  same_stores (self w) (self w') /\
  likelihoods (self w') = likelihoods (self w) /\
  initial_delta (self w') = initial_delta (self w) /\
  backend_file (self w') = backend_file (self w).

(** The events a call [run N pos0 resume kwargs] on the object [s] may
    log: which calls it makes in which mode, and with which arguments. *)
Definition run_event (N : Z) (resume : bool) (kwargs : dict pyval) s
    (ev : event) : Prop :=
  match ev with
  | Stdout (MsgWalkers n) => n = walkers_used s
  | Stdout (MsgInitialSteps _) | CallIteration | CallGetChain => resume = true
  | CallHDFBackend file => file = backend_file s
  | CallReset n d =>
      resume = false /\ n = walkers_used s /\ d = Z.of_nat (length (fit_keys s))
  | CallRandn n => resume = false /\ n = length (fit_keys s)
  | CallEnsembleSampler n d =>
      n = walkers_used s /\ d = Z.of_nat (length (fit_keys s))
  | CallRunMcmc _ n kw => 0 < N /\ n = N /\ kw = kwargs
  | Stdout _ | Traceback _ | CallSetModelParams _ | CallFullRun => 0 < N
  end.

(** A call [run N pos0 resume kwargs] from [w0] is under way with the object
    [s] and the log [l]: the walker count is the corrected one, the events
    so far are events of this call, and the sampler attribute is set once
    [run_mcmc] was called. *)
Definition underway (N : Z) (resume : bool) (kwargs : dict pyval) (w0 : World)
    s (l : list event) : Prop :=
  n_walkers s = walkers_used (self w0) /\
  fit_keys s = fit_keys (self w0) /\
  backend_file s = backend_file (self w0) /\
  exists evs,
    l = log w0 ++ evs /\
    Forall (run_event N resume kwargs (self w0)) evs /\
    (Exists is_run_mcmc evs -> is_Some (sampler s)).

(** The events of an evaluation of the posterior: what [generate_theory]
    and [lnprob] print, and their calls of the cosmology. *)
Definition posterior_event (ev : event) : Prop :=
  match ev with
  | Stdout (MsgModelError _) | Stdout (MsgLoglike _ _) | Traceback _
  | CallSetModelParams _ | CallFullRun => True
  | _ => False
  end.

End Specification.

(** ** A small world to run the class in *)

Module Toy.

(** A cosmology that keeps a parameter table and fails on a negative
    ["omega"]. *)
Definition model : Type := dict pyval.
Definition spectra : Type := list float.

Definition toy_set_model_params (d : dict pyval) (cm : model)
    : outcome unit * model :=
  (Return (), foldl (fun m kv => dict_set kv.1 kv.2 m) cm d).

Definition toy_full_run (cm : model) : outcome spectra * model :=
  match dict_get "omega" cm with
  | Some (PyFloat x) =>
      if ltb x zero then (Raise (Foreign "CosmologyError" true), cm)
      else (Return [x], cm)
  | _ => (Return [], cm)
  end.

#[global] Instance toy_cosmology : Cosmology model spectra :=
  {| set_model_params := toy_set_model_params; full_run := toy_full_run |}.

(** A checkpoint file that holds a chain and its log-probabilities, and a
    sampler that scores its starting positions and stores them as one
    step. *)
Record store : Type := mkStore {
  chain : list (list (list float));
  log_prob : list (list float)
}.

Fixpoint score (todo : list (list float)) (done : list float)
    (pos0 : list (list float)) (e : store) : sampling store :=
  match todo with
  | [] => Finished (Return ())
            (mkStore (chain e ++ [pos0]) (log_prob e ++ [done]))
  | theta :: todo' =>
      Evaluate theta (fun r =>
        match r with
        | Return v => score todo' (done ++ [v]) pos0 e
        | Raise x => Finished (Raise x) e
        end)
  end.

#[global] Instance toy_emcee : Emcee string (Z * Z) store :=
  {| HDFBackend file e :=
       match file with
       | Some f => (Return f, e)
       | None => (Raise (Foreign "TypeError" true), e)
       end;
     iteration _ e := (Return (Z.of_nat (length (chain e))), e);
     get_chain _ e := (Return (chain e), e);
     reset _ _ _ e := (Return (), mkStore [] []);
     EnsembleSampler nwalkers ndim _ e := (Return (nwalkers, ndim), e);
     run_mcmc _ pos0 _ _ e := score pos0 [] pos0 e;
     flatlnprobability _ e := Return (concat (log_prob e));
     flatchain _ e := Return (concat (chain e)) |}.

(** Draws that cycle through three finite numbers. *)
Definition draw (i : nat) : float :=
  match (i mod 3)%nat with
  | O => of_Z 1
  | S O => of_Z (-2)
  | _ => zero
  end.

#[global] Program Instance toy_random : Random nat :=
  {| randn n r := (draw <$> seq r n, (r + n)%nat) |}.
Next Obligation. intros n r. simpl. by rewrite length_fmap, length_seq. Qed.
Next Obligation.
  intros n r. simpl. apply Forall_fmap, Forall_forall. intros i _. simpl.
  unfold draw. by destruct (i mod 3)%nat as [|[|?]].
Qed.

Definition world : Type := @World model spectra (Z * Z) store nat.

(** A new object, two walkers and no jitter. *)
Definition fresh : world :=
  mkWorld (MCMC_init 2 zero (Some "chain.h5")) (mkStore [] []) 0%nat [].

(** Two fit parameters and a fixed one. *)
Definition params1 : dict pyval :=
  [("omega", PyList [of_Z 0; of_Z 1; of_Z 2]);
   ("h", PyFloat (of_Z 3));
   ("tau", PyTuple [of_Z 0; of_Z 1; of_Z 4])].

Definition configured : world :=
  Eval vm_compute in (set_cosmology [] (set_params params1 fresh).2).2.

(** The same with one likelihood, which scores every theory [-3]. *)
Definition scored : world :=
  Eval vm_compute in
    (add_likelihood (fun _ => Return (of_Z (-3))) configured).2.

(** A later configuration that gives a fit key a number and a base key a
    triple. *)
Definition params2 : dict pyval :=
  [("omega", PyFloat (of_Z 7)); ("h", PyList [of_Z 1; of_Z 2; of_Z 3])].

(** A list of two elements under a key. *)
Definition params_short : dict pyval := [("a", PyList [of_Z 1; of_Z 2])].

(** A fit parameter that starts at infinity. *)
Definition unbounded : world :=
  Eval vm_compute in
    (set_params [("omega", PyList [of_Z 0; inf; inf])] fresh).2.

(** An object after a run: two walkers, one step, log-probabilities [-5]
    and [-1]. *)
Definition sampled : world :=
  Eval vm_compute in
    mkWorld (with_sampler (Some (2, 2)) (self configured))
      (mkStore [[[of_Z 1; of_Z 2]; [of_Z 3; of_Z 4]]] [[of_Z (-5); of_Z (-1)]])
      0%nat [].


(** The parameters of [params1] in an object that has no cosmology yet. *)
Definition unattached : world := Eval vm_compute in (set_params params1 fresh).2.

(** A fit key with a list of one number. *)
Definition params_single : dict pyval := [("a", PyList [of_Z 1])].

Definition single : world := Eval vm_compute in (set_params params_single fresh).2.

(** A cosmology whose [set_model_params] refuses a negative ["omega"]. *)
Inductive checked : Type := Checked (table : dict pyval).

Definition checked_set_model_params (d : dict pyval) (cm : checked)
    : outcome unit * checked :=
  match dict_get "omega" d with
  | Some (PyFloat x) =>
      if ltb x zero then (Raise (Foreign "ValueError" true), cm)
      else (Return (), Checked d)
  | _ => (Return (), Checked d)
  end.

#[global] Instance checked_cosmology : Cosmology checked spectra :=
  {| set_model_params := checked_set_model_params;
     full_run cm := (Return [], cm) |}.

Definition guarded : @World checked spectra (Z * Z) store nat :=
  Eval vm_compute in
    (set_cosmology (Checked [])
       (set_params params1
          (mkWorld (MCMC_init 2 zero (Some "chain.h5")) (mkStore [] []) 0%nat [])).2).2.

End Toy.

(** * Properties *)

(** ** Comparisons and zero factors of binary64 numbers *)

Module Float64Facts.

Ltac norm_cmp :=
  repeat match goal with
  | |- context [PosDef.Pos.compare_cont Eq ?a ?b] =>
      change (PosDef.Pos.compare_cont Eq a b) with (Pos.compare a b)
  end.

Lemma compare_antisym x y :
  SFcompare y x = CompOpp <$> SFcompare x y.
Proof.
  destruct x as [[]|[]| |[] mx ex], y as [[]|[]| |[] my ey]; simpl; try reflexivity.
  all: norm_cmp; rewrite (Z.compare_antisym ex ey), (Pos.compare_antisym mx my).
  all: destruct (ex ?= ey); simpl; try reflexivity.
  all: destruct (mx ?= my)%positive; reflexivity.
Qed.

Lemma compare_refl x : isnan x = false -> SFcompare x x = Some Eq.
Proof.
  destruct x as [[]|[]| |[] mx ex]; simpl; try done.
  all: norm_cmp; rewrite Z.compare_refl, Pos.compare_refl; done.
Qed.

Lemma gtb_ltb x y : gtb x y = ltb y x.
Proof.
  unfold gtb, ltb, SFltb. rewrite (compare_antisym x y).
  destruct (SFcompare x y) as [[]|]; reflexivity.
Qed.

Lemma leb_not_ltb x y : leb x y = true -> ltb y x = false.
Proof.
  unfold leb, ltb, SFleb, SFltb. rewrite (compare_antisym x y).
  destruct (SFcompare x y) as [[]|]; simpl; congruence.
Qed.

Lemma leb_isnan x y : leb x y = true -> isnan x = false /\ isnan y = false.
Proof. destruct x as [[]|[]| |[] mx ex], y as [[]|[]| |[] my ey]; simpl; done. Qed.

Lemma not_leb_ltb x y :
  isnan x = false -> isnan y = false -> leb x y = false -> ltb y x = true.
Proof.
  unfold leb, ltb, SFleb, SFltb. rewrite (compare_antisym x y).
  destruct x as [[]|[]| |[] mx ex], y as [[]|[]| |[] my ey]; simpl; try done.
  all: norm_cmp; destruct (ex ?= ey); simpl; try done.
  all: destruct (mx ?= my)%positive; simpl; done.
Qed.

Lemma leb_trans x y z : leb x y = true -> leb y z = true -> leb x z = true.
Proof.
  unfold leb, SFleb.
  destruct x as [[]|[]| |[] mx ex], y as [[]|[]| |[] my ey],
    z as [[]|[]| |[] mz ez]; simpl; try done.
  all: norm_cmp; destruct (Z.compare_spec ex ey), (Z.compare_spec ey ez),
         (Z.compare_spec ex ez); try done; try lia.
  all: subst; simpl.
  all: destruct (Pos.compare_spec mx my), (Pos.compare_spec my mz),
         (Pos.compare_spec mx mz); simpl; try done; try lia.
Qed.

Lemma ltb_leb x y : ltb x y = true -> leb x y = true.
Proof. unfold ltb, leb, SFltb, SFleb. destruct (SFcompare x y) as [[]|]; done. Qed.

Lemma leb_refl x : isnan x = false -> leb x x = true.
Proof. intros H. unfold leb, SFleb. rewrite compare_refl; done. Qed.

Lemma eqb_refl x : isnan x = false -> eqb x x = true.
Proof. intros H. unfold eqb, SFeqb. rewrite compare_refl; done. Qed.

(** Adding the product with a zero factor leaves a finite number where it
    is, up to the sign of a zero. *)
Lemma add_mul_zero_factor r d x :
  isfinite r = true -> eqb d zero = true -> isfinite x = true ->
  eqb (add x (mul (mul r d) x)) x = true.
Proof.
  destruct d as [sd|[]| |[] ? ?]; try done. intros Hr _ Hx.
  destruct r as [sr| | |sr mr er]; try done;
    destruct x as [sx| | |sx mx ex]; try done; simpl.
  all: try (destruct sr, sd, sx; reflexivity).
  all: apply (eqb_refl (S754_finite sx mx ex)); reflexivity.
Qed.

End Float64Facts.

Import Float64Facts.

(** ** Dictionaries *)

Section Dict.
Context {V : Type}.
Implicit Types (d : dict V) (k : string) (v : V).

Lemma dict_get_set_eq d k v : dict_get k (dict_set k v d) = Some v.
Proof.
  induction d as [|[k' v'] d IH]; simpl.
  - by rewrite String.eqb_refl.
  - destruct (String.eqb_spec k' k) as [->|Hne]; simpl.
    + by rewrite String.eqb_refl.
    + by destruct (String.eqb_spec k' k).
Qed.

Lemma dict_get_set_ne d k k' v :
  k <> k' -> dict_get k' (dict_set k v d) = dict_get k' d.
Proof.
  intros Hne. induction d as [|[k0 v0] d IH]; simpl.
  - by destruct (String.eqb_spec k k').
  - destruct (String.eqb_spec k0 k) as [->|Hne0]; simpl.
    + by destruct (String.eqb_spec k k').
    + by rewrite IH.
Qed.

Lemma dict_get_Some_keys d k v : dict_get k d = Some v -> k ∈ dict_keys d.
Proof.
  induction d as [|[k' v'] d IH]; simpl; [done|].
  destruct (String.eqb_spec k' k) as [->|Hne]; intros H.
  - apply list_elem_of_here.
  - apply list_elem_of_further, IH, H.
Qed.

Lemma dict_keys_get d k : k ∈ dict_keys d -> is_Some (dict_get k d).
Proof.
  induction d as [|[k' v'] d IH]; simpl.
  - by intros ?%elem_of_nil.
  - intros [->|Hin]%elem_of_cons; simpl.
    + by rewrite String.eqb_refl.
    + destruct (String.eqb_spec k' k); [done|by apply IH].
Qed.

(** Assigning to a key never loses a key, and keeps the order of those
    already there. *)
Lemma dict_keys_set d k v :
  dict_keys (dict_set k v d) =
    if bool_decide (k ∈ dict_keys d) then dict_keys d else dict_keys d ++ [k].
Proof.
  induction d as [|[k' v'] d IH]; simpl; [done|].
  destruct (String.eqb_spec k' k) as [->|Hne]; simpl.
  - rewrite bool_decide_eq_true_2; [done|apply list_elem_of_here].
  - unfold dict_keys in *. rewrite IH. case_bool_decide as Hin.
    + rewrite bool_decide_eq_true_2; [done|by apply list_elem_of_further].
    + rewrite bool_decide_eq_false_2; [done|].
      intros [?|?]%elem_of_cons; [by subst|done].
Qed.

Lemma dict_keys_set_NoDup d k v :
  NoDup (dict_keys d) -> NoDup (dict_keys (dict_set k v d)).
Proof.
  intros Hd. rewrite dict_keys_set. case_bool_decide as Hin; [done|].
  apply NoDup_app. split_and!; [done| |apply NoDup_singleton].
  intros x Hx ->%list_elem_of_singleton. done.
Qed.

End Dict.

(** ** The prior *)

Section Prior.
Context {C T B Sm E R : Type}.
Context `{!Cosmology C T, !Emcee B Sm E, !Random R}.
Abbreviation MCMC := (@MCMC C T Sm).
Implicit Types (s : MCMC) (theta : list float).

Lemma lnprior_from_inside fp i keys theta :
  (forall j k, keys !! j = Some k ->
     exists lower fid upper p,
       dict_get k fp = Some [lower; fid; upper] /\
       theta !! (i + j)%nat = Some p /\
       ltb p lower = false /\ gtb p upper = false) ->
  lnprior_from fp i keys theta = Return zero.
Proof.
  revert i. induction keys as [|k keys IH]; intros i Hk; simpl; [done|].
  destruct (Hk 0%nat k eq_refl) as (lo & fid & up & p & Hget & Hp & Hlo & Hup).
  rewrite Nat.add_0_r in Hp.
  unfold subscript, index. rewrite Hget. simpl. rewrite Hp. simpl.
  rewrite Hlo, Hup. apply IH. intros j k' Hj.
  destruct (Hk (S j) k' Hj) as (lo' & fid' & up' & p' & ? & Hp' & ? & ?).
  exists lo', fid', up', p'. split_and!; try done.
  by rewrite <- Hp', Nat.add_succ_r.
Qed.

Lemma lnprior_from_outside fp i keys theta :
  (forall j k, keys !! j = Some k ->
     exists lower fid upper p,
       dict_get k fp = Some [lower; fid; upper] /\
       theta !! (i + j)%nat = Some p) ->
  (exists j k lower fid upper p,
     keys !! j = Some k /\ dict_get k fp = Some [lower; fid; upper] /\
     theta !! (i + j)%nat = Some p /\
     (ltb p lower = true \/ gtb p upper = true)) ->
  lnprior_from fp i keys theta = Return neg_inf.
Proof.
  revert i. induction keys as [|k keys IH]; intros i Hk Hout; simpl.
  { destruct Hout as (j & ? & ? & ? & ? & ? & Hj & _). by destruct j. }
  destruct (Hk 0%nat k eq_refl) as (lo & fid & up & p & Hget & Hp).
  rewrite Nat.add_0_r in Hp.
  unfold subscript, index. rewrite Hget. simpl. rewrite Hp. simpl.
  destruct (ltb p lo) eqn:Hlo; [done|].
  destruct (gtb p up) eqn:Hup; [done|].
  apply IH.
  - intros j k' Hj.
    destruct (Hk (S j) k' Hj) as (lo' & fid' & up' & p' & ? & Hp').
    exists lo', fid', up', p'. split; [done|].
    by rewrite <- Hp', Nat.add_succ_r.
  - destruct Hout as (j & k' & lo' & fid' & up' & p' & Hj & Hget' & Hp' & Hcmp).
    destruct j as [|j].
    + simpl in Hj. injection Hj as <-. rewrite Nat.add_0_r in Hp'.
      rewrite Hget in Hget'. injection Hget' as <- <- <-.
      rewrite Hp in Hp'. injection Hp' as <-.
      destruct Hcmp; congruence.
    + exists j, k', lo', fid', up', p'. split_and!; try done.
      by rewrite <- Hp', Nat.add_succ_r.
Qed.

Lemma aligned_lookup s theta j k :
  aligned s theta -> fit_keys s !! j = Some k ->
  exists lower fid upper p,
    registered s k lower fid upper /\ theta !! j = Some p.
Proof.
  intros [Hlen Hreg] Hj.
  destruct (Hreg k) as (lo & fid & up & Hk).
  { by eapply list_elem_of_lookup_2. }
  destruct (lookup_lt_is_Some_2 theta j) as [p Hp].
  { rewrite Hlen. by eapply lookup_lt_Some. }
  by exists lo, fid, up, p.
Qed.

(** C1.  For a coordinate vector aligned to the fit keys: when every
    component lies within its registered bound ([lower <= p <= upper]),
    [lnprior] returns zero; when some component lies outside its bound
    ([p < lower] or [p > upper]), it returns negative infinity. *)
Theorem lnprior_zero_within_neg_inf_outside s theta :
  aligned s theta ->
  ((forall i p lower upper, coordinate s theta i p lower upper ->
      leb lower p = true /\ leb p upper = true) ->
   lnprior s theta = Return zero) /\
  ((exists i p lower upper, coordinate s theta i p lower upper /\
      (ltb p lower = true \/ gtb p upper = true)) ->
   lnprior s theta = Return neg_inf).
Proof.
  intros Hal. split.
  - intros Hin. apply lnprior_from_inside. intros j k Hj. simpl.
    destruct (aligned_lookup s theta j k Hal Hj) as (lo & fid & up & p & Hk & Hp).
    destruct (Hin j p lo up) as [Hlo Hup]; [by exists k, fid|].
    exists lo, fid, up, p. split_and!; try done.
    + by apply leb_not_ltb.
    + rewrite gtb_ltb. by apply leb_not_ltb.
  - intros (i & p & lo & up & (k & fid & Hi & Hp & Hk) & Hcmp).
    apply lnprior_from_outside.
    + intros j k' Hj. simpl.
      destruct (aligned_lookup s theta j k' Hal Hj) as (lo' & fid' & up' & p' & ? & ?).
      by exists lo', fid', up', p'.
    + by exists i, k, lo, fid, up, p.
Qed.

(** A NaN component is neither below its lower bound nor above its upper
    bound: the prior lets it through. *)
Lemma lnprior_nan_passes s k lower fid upper :
  fit_keys s = [k] -> registered s k lower fid upper ->
  lnprior s [nan] = Return zero.
Proof.
  intros Hkeys Hk. unfold lnprior, registered in *. rewrite Hkeys. simpl.
  unfold subscript. rewrite Hk. simpl. destruct lower, upper; reflexivity.
Qed.

End Prior.

(** ** Reasoning about computations *)

Section Computations.
Context {C T B Sm E R : Type}.
Context `{!Cosmology C T, !Emcee B Sm E, !Random R}.
Abbreviation World := (@World C T Sm E R).
Abbreviation M := (@M C T Sm E R).
Abbreviation step := (@step C T Sm E R).
Implicit Types (w : World).

Lemma wp_bind {A A'} (m : M A) (f : A -> M A') Q w :
  wp m (fun r w' =>
          match r with
          | Return a => wp (f a) Q w'
          | Raise e => Q (Raise e) w'
          end) w ->
  wp (m ≫= f) Q w.
Proof.
  unfold wp, mbind, M_bind. by destruct (m w) as [[a|e] w'].
Qed.

Lemma wp_mono {A} (m : M A) (Q Q' : outcome A -> World -> Prop) w :
  wp m Q w -> (forall r w', Q r w' -> Q' r w') -> wp m Q' w.
Proof. unfold wp. auto. Qed.

Lemma wp_attempt {A} (m : M A) Q w :
  wp m (fun r w' => Q (Return r) w') w -> wp (attempt m) Q w.
Proof. unfold wp, attempt. by destruct (m w). Qed.

Section Keeps.
Context (Rel : World -> World -> Prop) `{!PreOrder Rel}.

Lemma keeps_bind {A A'} (m : M A) (f : A -> M A') :
  keeps Rel m -> (forall a, keeps Rel (f a)) -> keeps Rel (m ≫= f).
Proof.
  intros Hm Hf w. unfold mbind, M_bind. specialize (Hm w).
  destruct (m w) as [[a|e] w']; simpl in *; [|done].
  by etrans; [|apply Hf].
Qed.

Lemma keeps_ret {A} (a : A) : keeps Rel (mret a : M A).
Proof. intros w. simpl. reflexivity. Qed.

Lemma keeps_raise {A} e : keeps Rel (raise e : M A).
Proof. intros w. simpl. reflexivity. Qed.

Lemma keeps_lift {A} (o : outcome A) : keeps Rel (lift o).
Proof. intros w. simpl. reflexivity. Qed.

Lemma keeps_get_self : keeps Rel get_self.
Proof. intros w. simpl. reflexivity. Qed.

Lemma keeps_get_emcee : keeps Rel get_emcee.
Proof. intros w. simpl. reflexivity. Qed.

Lemma keeps_attempt {A} (m : M A) : keeps Rel m -> keeps Rel (attempt m).
Proof. intros Hm w. unfold attempt. specialize (Hm w). by destruct (m w). Qed.

End Keeps.

#[local] Instance step_preorder P : PreOrder (step P).
Proof.
  split.
  - intros w. split; [by destruct (self w)|].
    exists []. by rewrite app_nil_r.
  - intros w1 w2 w3 [H12 (evs1 & Hl1 & HP1)] [H23 (evs2 & Hl2 & HP2)]. split.
    + rewrite <- H12, <- H23. by destruct (self w3).
    + exists (evs1 ++ evs2). rewrite Hl2, Hl1, app_assoc. split; [done|].
      by apply Forall_app.
Qed.

Lemma step_self P w w' :
  step P w w' ->
  n_walkers (self w') = n_walkers (self w) /\
  initial_delta (self w') = initial_delta (self w) /\
  sampler (self w') = sampler (self w) /\
  base_params (self w') = base_params (self w) /\
  fit_params (self w') = fit_params (self w) /\
  fit_keys (self w') = fit_keys (self w) /\
  likelihoods (self w') = likelihoods (self w).
Proof. intros [<- _]. by destruct (self w'). Qed.

Section Step.
Context (P : event -> Prop).

Lemma step_modify_cosmology c : keeps (step P) (modify_self (with_cosmology c)).
Proof.
  intros w. split; simpl; [by destruct (self w)|].
  exists []. by rewrite app_nil_r.
Qed.

Lemma step_emit ev : P ev -> keeps (step P) (emit ev).
Proof.
  intros HP w. split; simpl; [by destruct (self w)|].
  exists [ev]. split; [done|]. by apply Forall_singleton.
Qed.

Lemma step_call_randn n : P (CallRandn n) -> keeps (step P) (call_randn n).
Proof.
  intros HP w. unfold call_randn. destruct (randn n (rng w)) as [xs r'].
  split; simpl; [by destruct (self w)|].
  exists [CallRandn n]. split; [done|]. by apply Forall_singleton.
Qed.

End Step.

Ltac event_ok :=
  solve [ auto
        | match goal with
          | H : forall ev, model_event ev -> _ |- _ => apply H; exact I
          end ].

Ltac keeps_step :=
  first
    [ apply keeps_ret | apply keeps_raise | apply keeps_lift
    | apply keeps_get_self | apply keeps_get_emcee
    | apply step_modify_cosmology
    | apply step_emit; event_ok
    | apply step_call_randn; event_ok
    | apply keeps_attempt
    | apply keeps_bind; [apply _| |intros ?]
    | match goal with
      | |- keeps _ (match ?x with _ => _ end) => destruct x
      end ]; try apply _.

Section Model.
Context (P : event -> Prop) (HP : forall ev, model_event ev -> P ev).

Lemma step_call_set_model_params d : keeps (step P) (call_set_model_params d).
Proof using HP. unfold call_set_model_params. repeat keeps_step. Qed.

Lemma step_call_full_run : keeps (step P) call_full_run.
Proof using HP. unfold call_full_run. repeat keeps_step. Qed.

Lemma step_generate_theory theta : keeps (step P) (generate_theory theta).
Proof using HP.
  unfold generate_theory. repeat keeps_step.
Qed.

Lemma step_lnprob theta : keeps (step P) (lnprob theta).
Proof using HP.
  unfold lnprob. repeat keeps_step.
Qed.

Lemma step_drive t : keeps (step P) (drive t).
Proof using HP.
  induction t as [r e|theta k IH]; simpl.
  - intros w. split; simpl; [by destruct (self w)|].
    exists []. by rewrite app_nil_r.
  - apply keeps_bind; [apply _| |intros r; apply IH].
    apply keeps_attempt, step_lnprob.
Qed.

Lemma step_call_run_mcmc smp pos0 N kwargs :
  P (CallRunMcmc pos0 N kwargs) ->
  keeps (step P) (call_run_mcmc smp pos0 N kwargs).
Proof using HP.
  intros Hrun. unfold call_run_mcmc.
  apply keeps_bind; [apply _|by apply step_emit|intros _].
  apply keeps_bind; [apply _|apply keeps_get_emcee; apply _|intros e].
  apply step_drive.
Qed.

End Model.

Lemma step_generate_initial_pos P :
  (forall n, P (CallRandn n)) -> keeps (step P) generate_initial_pos.
Proof.
  intros HP. unfold generate_initial_pos.
  apply keeps_bind; [apply _|apply keeps_get_self; apply _|intros s].
  generalize (@nil (list float)).
  induction (Z.to_nat _) as [|n IH]; intros pos0; simpl.
  - apply keeps_ret; apply _.
  - apply keeps_bind; [apply _| |intros pos; apply IH].
    unfold initial_pos. repeat keeps_step.
Qed.

End Computations.

(** ** The posterior *)

Section Posterior.
Context {C T B Sm E R : Type}.
Context `{!Cosmology C T, !Emcee B Sm E, !Random R}.
Abbreviation World := (@World C T Sm E R).
Implicit Types (w : World) (theta : list float).

Lemma generate_theory_caught w theta e :
  full_run_raises w theta e -> isinstance_Exception e = true ->
  exists w', generate_theory theta w = (Return (None, true), w') /\
    Traceback e ∈ log w'.
Proof.
  intros (cm & mp & cm1 & cm2 & Hcm & Hmp & Hset & Hrun) He.
  unfold generate_theory, call_set_model_params, call_full_run, attempt.
  unfold mbind, M_bind, get_self, lift, emit, modify_self. simpl.
  rewrite Hmp, Hcm, Hset. simpl. rewrite Hrun. simpl. rewrite He. simpl.
  eexists. split; [reflexivity|]. simpl.
  apply elem_of_app. right. apply list_elem_of_here.
Qed.

(** C4.  When the model's full evaluation raises an exception (an instance
    of [Exception]), [generate_theory] does not raise: it returns [None]
    with the error flag set, having printed the traceback; and [lnprob]
    returns negative infinity, whatever the prior of the point is. *)
Theorem model_failure_rejects_point w theta e :
  full_run_raises w theta e -> isinstance_Exception e = true ->
  (generate_theory theta w).1 = Return (None, true) /\
  Traceback e ∈ log (generate_theory theta w).2 /\
  (lnprob theta w).1 = Return neg_inf.
Proof.
  intros Hraises He.
  destruct (generate_theory_caught w theta e Hraises He) as (w' & Hgen & Hlog).
  unfold lnprob, mbind, M_bind. rewrite Hgen. done.
Qed.

(** What [except Exception] does not catch goes through both methods. *)
Lemma model_failure_not_caught w theta e :
  full_run_raises w theta e -> isinstance_Exception e = false ->
  (generate_theory theta w).1 = Raise e /\ (lnprob theta w).1 = Raise e.
Proof.
  intros (cm & mp & cm1 & cm2 & Hcm & Hmp & Hset & Hrun) He.
  assert ((generate_theory theta w).1 = Raise e) as Hgen.
  { unfold generate_theory, call_set_model_params, call_full_run, attempt.
    unfold mbind, M_bind, get_self, lift, emit, modify_self. simpl.
    rewrite Hmp, Hcm, Hset. simpl. rewrite Hrun. simpl. by rewrite He. }
  split; [done|]. unfold lnprob, mbind, M_bind.
  destruct (generate_theory theta w) as [[[ps err]|e'] w']; simpl in *; congruence.
Qed.

Lemma generate_theory_frame w theta r w' :
  generate_theory theta w = (r, w') ->
  fit_params (self w') = fit_params (self w) /\
  fit_keys (self w') = fit_keys (self w) /\
  likelihoods (self w') = likelihoods (self w).
Proof.
  intros Hgen.
  pose proof (step_generate_theory (fun _ => True) (fun _ _ => I) theta w) as Hstep.
  rewrite Hgen in Hstep. apply step_self in Hstep. tauto.
Qed.

Lemma lnprior_frame (s s' : @MCMC C T Sm) theta :
  fit_params s' = fit_params s -> fit_keys s' = fit_keys s ->
  lnprior s' theta = lnprior s theta.
Proof. unfold lnprior. by intros -> ->. Qed.

(** With a finite prior, [lnprob] reads [like] before anything was assigned
    to it: in the loop when there is a likelihood, in the [print] when
    there is none. *)
Lemma lnprob_finite_prior_raises w theta ps_theory w' prior :
  model_run_succeeds w theta ps_theory w' ->
  lnprior (self w) theta = Return prior -> isfinite prior = true ->
  lnprob theta w = (Raise (UnboundLocalError "like"), w').
Proof.
  intros Hgen Hprior Hfin.
  destruct (generate_theory_frame _ _ _ _ Hgen) as (Hfp & Hfk & Hlk).
  unfold lnprob, mbind, M_bind. rewrite Hgen. simpl.
  rewrite (lnprior_frame (self w) (self w') theta Hfp Hfk), Hprior. simpl.
  rewrite Hfin. by destruct (likelihoods (self w')).
Qed.

(** C3.  When the model run succeeds, the prior is finite and at least one
    likelihood is registered, [lnprob] raises [UnboundLocalError] for
    [like] and returns no value: the accumulator is read by the first
    [like += ...] and was never assigned. *)
Theorem lnprob_accumulator_unbound w theta ps_theory w' prior :
  model_run_succeeds w theta ps_theory w' ->
  lnprior (self w) theta = Return prior -> isfinite prior = true ->
  likelihoods (self w) <> [] ->
  accumulate (likelihoods (self w)) ps_theory None
    = Raise (UnboundLocalError "like") /\
  lnprob theta w = (Raise (UnboundLocalError "like"), w').
Proof.
  intros Hgen Hprior Hfin Hlikes. split.
  - by destruct (likelihoods (self w)).
  - by eapply lnprob_finite_prior_raises.
Qed.

(** With an infinite prior [lnprob] returns negative infinity. *)
Lemma lnprob_infinite_prior w theta ps_theory w' prior :
  model_run_succeeds w theta ps_theory w' ->
  lnprior (self w) theta = Return prior -> isfinite prior = false ->
  lnprob theta w = (Return neg_inf, w').
Proof.
  intros Hgen Hprior Hfin.
  destruct (generate_theory_frame _ _ _ _ Hgen) as (Hfp & Hfk & Hlk).
  unfold lnprob, mbind, M_bind. rewrite Hgen. simpl.
  rewrite (lnprior_frame (self w) (self w') theta Hfp Hfk), Hprior. simpl.
  by rewrite Hfin.
Qed.


End Posterior.

(** ** The parameter stores *)

Section Params.
Context {C T B Sm E R : Type}.
Context `{!Cosmology C T, !Emcee B Sm E, !Random R}.
Abbreviation MCMC := (@MCMC C T Sm).
Abbreviation World := (@World C T Sm E R).
Implicit Types (s : MCMC) (w : World) (params : dict pyval).

Lemma classify_fit s k v :
  fit_params (classify s (k, v)) =
    match sequence_of v with
    | Some l => dict_set k l (fit_params s)
    | None => fit_params s
    end.
Proof. by destruct v. Qed.

Lemma classify_base s k v :
  base_params (classify s (k, v)) =
    match sequence_of v with
    | Some l => base_params s
    | None => dict_set k v (base_params s)
    end.
Proof. by destruct v. Qed.

Lemma dict_get_not_key {V} (d : dict V) k : k ∉ dict_keys d -> dict_get k d = None.
Proof.
  intros Hk. destruct (dict_get k d) as [v|] eqn:Hget; [|done].
  by apply dict_get_Some_keys in Hget.
Qed.

(** The stores after the loop of [set_params], key by key. *)
Lemma classify_all_fit s params k :
  NoDup (dict_keys params) ->
  dict_get k (fit_params (foldl classify s params)) =
    match dict_get k params ≫= sequence_of with
    | Some l => Some l
    | None => dict_get k (fit_params s)
    end.
Proof.
  revert s. induction params as [|[k0 v0] params IH]; intros s Hnd; [done|].
  apply NoDup_cons in Hnd as [Hk0 Hnd]. simpl foldl. rewrite IH by done.
  rewrite classify_fit. simpl dict_get.
  destruct (String.eqb_spec k0 k) as [->|Hne].
  - rewrite (dict_get_not_key params k Hk0). simpl.
    destruct (sequence_of v0); [by rewrite dict_get_set_eq|done].
  - destruct (dict_get k params ≫= sequence_of); [done|].
    destruct (sequence_of v0); [by rewrite dict_get_set_ne|done].
Qed.

Lemma classify_all_base s params k :
  NoDup (dict_keys params) ->
  dict_get k (base_params (foldl classify s params)) =
    match dict_get k params with
    | Some v =>
        match sequence_of v with
        | Some _ => dict_get k (base_params s)
        | None => Some v
        end
    | None => dict_get k (base_params s)
    end.
Proof.
  revert s. induction params as [|[k0 v0] params IH]; intros s Hnd; [done|].
  apply NoDup_cons in Hnd as [Hk0 Hnd]. simpl foldl. rewrite IH by done.
  rewrite classify_base. simpl dict_get.
  destruct (String.eqb_spec k0 k) as [->|Hne].
  - rewrite (dict_get_not_key params k Hk0).
    destruct (sequence_of v0); [done|by rewrite dict_get_set_eq].
  - destruct (dict_get k params) as [v|].
    + destruct (sequence_of v); [|done].
      destruct (sequence_of v0); [done|by rewrite dict_get_set_ne].
    + destruct (sequence_of v0); [done|by rewrite dict_get_set_ne].
Qed.

Lemma dict_keys_set_mono {V} (d : dict V) k k' v :
  k ∈ dict_keys d -> k ∈ dict_keys (dict_set k' v d).
Proof.
  intros Hk. rewrite dict_keys_set. case_bool_decide; [done|].
  apply elem_of_app. by left.
Qed.

Lemma classify_all_keys s params k :
  (k ∈ dict_keys (fit_params s) ->
   k ∈ dict_keys (fit_params (foldl classify s params))) /\
  (k ∈ dict_keys (base_params s) ->
   k ∈ dict_keys (base_params (foldl classify s params))).
Proof.
  revert s. induction params as [|[k0 v0] params IH]; intros s; [done|].
  simpl foldl. destruct (IH (classify s (k0, v0))) as [IHf IHb].
  rewrite classify_fit, classify_base in *.
  split; intros Hk; [apply IHf|apply IHb]; destruct (sequence_of v0);
    auto using dict_keys_set_mono.
Qed.

(** What [set_params] leaves in the object: the stores as the loop made
    them, and the fit keys read off the fit store.  This holds also when
    the cosmology's [set_model_params] raises at the end. *)
Lemma set_params_stores w params :
  let s' := self (set_params params w).2 in
  fit_params s' = fit_params (foldl classify (self w) params) /\
  base_params s' = base_params (foldl classify (self w) params) /\
  fit_keys s' = dict_keys (fit_params s').
Proof.
  unfold set_params, call_set_model_params.
  unfold mbind, M_bind, get_self, lift, emit, modify_self. simpl.
  destruct (cosmology (foldl classify (self w) params)) as [cm|] eqn:Hcm;
    simpl; [|done].
  rewrite Hcm.
  match goal with
  | |- context [set_model_params ?d ?c] =>
      by destruct (set_model_params d c) as [[[]|e] cm']
  end.
Qed.

(** C5, amended.  [set_params] routes by type and not by length: a key
    whose value is a list or a tuple, of three elements or not, is put in
    the fit store (a tuple as a list) and is a fit key; a key whose value is
    anything else is put in the base store. *)
Theorem set_params_routes_by_type w params :
  NoDup (dict_keys params) ->
  routed_by_type params (self w) (self (set_params params w).2).
Proof.
  intros Hnd k v Hk.
  destruct (set_params_stores w params) as (Hfit & Hbase & Hkeys).
  rewrite Hkeys, Hfit, Hbase.
  rewrite classify_all_fit, classify_all_base by done. rewrite Hk. simpl.
  destruct (sequence_of v) as [l|] eqn:Hv; [|done].
  split_and!; [done| |done].
  apply (dict_get_Some_keys _ _ l).
  rewrite classify_all_fit by done. by rewrite Hk; simpl; rewrite Hv.
Qed.

(** C9.  [set_params] removes nothing.  A key of the fit store stays in the
    fit store and is a fit key afterwards, a key of the base store stays in
    the base store.  So a fit key that is given a scalar next keeps its
    triple and its place among the fit keys and is a base parameter as
    well, and a base key that is given a list or a tuple next keeps its
    base value. *)
Theorem set_params_never_removes w params :
  let s := self w in
  let s' := self (set_params params w).2 in
  (forall k, k ∈ dict_keys (fit_params s) ->
     k ∈ dict_keys (fit_params s') /\ k ∈ fit_keys s') /\
  (forall k, k ∈ dict_keys (base_params s) -> k ∈ dict_keys (base_params s')) /\
  (NoDup (dict_keys params) ->
   forall k l v, dict_get k (fit_params s) = Some l ->
     dict_get k params = Some v -> sequence_of v = None ->
     dict_get k (base_params s') = Some v /\
     dict_get k (fit_params s') = Some l /\ k ∈ fit_keys s') /\
  (NoDup (dict_keys params) ->
   forall k b v l, dict_get k (base_params s) = Some b ->
     dict_get k params = Some v -> sequence_of v = Some l ->
     dict_get k (fit_params s') = Some l /\ k ∈ fit_keys s' /\
     dict_get k (base_params s') = Some b).
Proof.
  intros s s'. subst s s'.
  destruct (set_params_stores w params) as (Hfit & Hbase & Hkeys).
  rewrite Hkeys, Hfit, Hbase. split_and!.
  - intros k Hk. split; by apply classify_all_keys.
  - intros k Hk. by apply classify_all_keys.
  - intros Hnd k l v Hl Hk Hv.
    assert (dict_get k (fit_params (foldl classify (self w) params)) = Some l)
      as Hl'.
    { rewrite classify_all_fit by done. rewrite Hk. simpl. by rewrite Hv. }
    split_and!; [|done|by eapply dict_get_Some_keys].
    rewrite classify_all_base by done. by rewrite Hk, Hv.
  - intros Hnd k b v l Hb Hk Hv.
    assert (dict_get k (fit_params (foldl classify (self w) params)) = Some l)
      as Hl'.
    { rewrite classify_all_fit by done. rewrite Hk. simpl. by rewrite Hv. }
    split_and!; [done|by eapply dict_get_Some_keys|].
    rewrite classify_all_base by done. by rewrite Hk, Hv.
Qed.

(** The fit keys are without repetition once [set_params] has run on an
    object whose fit store is a dictionary. *)
Lemma set_params_fit_keys_NoDup w params :
  NoDup (dict_keys (fit_params (self w))) ->
  NoDup (fit_keys (self (set_params params w).2)).
Proof.
  intros Hnd. destruct (set_params_stores w params) as (Hfit & _ & ->).
  rewrite Hfit. clear Hfit. revert Hnd. generalize (self w).
  induction params as [|[k v] params IH]; intros s Hnd; [done|].
  simpl. apply IH. rewrite classify_fit.
  destruct (sequence_of v); [by apply dict_keys_set_NoDup|done].
Qed.

End Params.

(** ** The run controller *)

Section Run.
Context {C T B Sm E R : Type}.
Context `{!Cosmology C T, !Emcee B Sm E, !Random R}.
Abbreviation MCMC := (@MCMC C T Sm).
Abbreviation World := (@World C T Sm E R).
Abbreviation M := (@M C T Sm E R).
Implicit Types (s : MCMC) (w : World).

Lemma wp_ret {A} (a : A) (Q : outcome A -> World -> Prop) w :
  Q (Return a) w -> wp (mret a : M A) Q w.
Proof. done. Qed.

Lemma wp_get_self {A} (k : MCMC -> M A) Q w :
  wp (k (self w)) Q w -> wp (get_self ≫= k) Q w.
Proof. done. Qed.

Lemma wp_modify_self {A} f (k : unit -> M A) Q w :
  wp (k ()) Q (mkWorld (f (self w)) (emcee w) (rng w) (log w)) ->
  wp (modify_self f ≫= k) Q w.
Proof. done. Qed.

Lemma wp_emit {A} ev (k : unit -> M A) Q w :
  wp (k ()) Q (mkWorld (self w) (emcee w) (rng w) (log w ++ [ev])) ->
  wp (emit ev ≫= k) Q w.
Proof. done. Qed.

Lemma wp_lift {A A'} (o : outcome A) (k : A -> M A') Q w :
  match o with
  | Return a => wp (k a) Q w
  | Raise e => Q (Raise e) w
  end ->
  wp (lift o ≫= k) Q w.
Proof. by destruct o. Qed.

Lemma wp_emcee_call {A A'} ev (f : E -> outcome A * E) (k : A -> M A') Q w :
  (forall r e', f (emcee w) = (r, e') ->
     match r with
     | Return a => wp (k a) Q (mkWorld (self w) e' (rng w) (log w ++ [ev]))
     | Raise e => Q (Raise e) (mkWorld (self w) e' (rng w) (log w ++ [ev]))
     end) ->
  wp (emcee_call ev f ≫= k) Q w.
Proof.
  intros Hk. apply wp_bind. unfold wp at 1, emcee_call.
  specialize (Hk (f (emcee w)).1 (f (emcee w)).2).
  destruct (f (emcee w)) as [r e']. by apply Hk.
Qed.

Lemma wp_keeps {A A'} Rel (m : M A) (k : A -> M A') Q w :
  keeps Rel m ->
  (forall r w', Rel w w' ->
     match r with
     | Return a => wp (k a) Q w'
     | Raise e => Q (Raise e) w'
     end) ->
  wp (m ≫= k) Q w.
Proof. intros Hm Hk. apply wp_bind. unfold wp at 1. apply Hk, Hm. Qed.

Lemma wp_assoc {A A' A''} (m : M A) (f : A -> M A') (g : A' -> M A'') Q w :
  wp (m ≫= fun a => f a ≫= g) Q w -> wp ((m ≫= f) ≫= g) Q w.
Proof.
  unfold wp, mbind, M_bind. by destruct (m w) as [[a|e] w'].
Qed.

Lemma wp_ret_bind {A A'} (a : A) (k : A -> M A') Q w :
  wp (k a) Q w -> wp (mret a ≫= k) Q w.
Proof. done. Qed.

Lemma sofar_event N w0 b s l ev :
  sofar N w0 b s l ->
  passes (walkers_used (self w0)) (Z.of_nat (length (fit_keys (self w0)))) ev ->
  ~ is_run_mcmc ev ->
  sofar N w0 b s (l ++ [ev]).
Proof.
  intros (Hn & evs & Hlog & Hpass & Hreset & Hidle) Hev Hnot.
  split; [done|].
  exists (evs ++ [ev]). rewrite Hlog, app_assoc.
  split_and!; [done|by apply Forall_app; split; [|apply Forall_singleton]| |].
  - intros Hb. apply elem_of_app. left. by apply Hreset.
  - intros HN. destruct (Hidle HN) as [? ?]. split; [done|].
    by apply Forall_app; split; [|apply Forall_singleton].
Qed.

Lemma sofar_step N w0 b w w' (P : event -> Prop) :
  sofar N w0 b (self w) (log w) -> step P w w' ->
  (forall ev, P ev ->
     passes (walkers_used (self w0)) (Z.of_nat (length (fit_keys (self w0)))) ev /\
     (N <= 0 -> ~ is_run_mcmc ev)) ->
  sofar N w0 b (self w') (log w').
Proof.
  intros (Hn & evs & Hlog & Hpass & Hreset & Hidle) Hstep HP.
  destruct (step_self _ _ _ Hstep) as (Hn' & _ & Hsm & _).
  destruct Hstep as [_ (evs' & Hlog' & HP')].
  split; [by rewrite Hn'|].
  exists (evs ++ evs'). rewrite Hlog', Hlog, app_assoc, Hsm.
  split_and!; [done| | |].
  - apply Forall_app. split; [done|].
    eapply Forall_impl; [exact HP'|]. intros ev Hev. by apply HP.
  - intros Hb. apply elem_of_app. left. by apply Hreset.
  - intros HN. destruct (Hidle HN) as [? ?]. split; [done|].
    apply Forall_app. split; [done|].
    eapply Forall_impl; [exact HP'|]. intros ev Hev. by apply HP.
Qed.

Lemma sofar_reset N w0 b s l :
  sofar N w0 b s l ->
  sofar N w0 true s
    (l ++ [CallReset (walkers_used (self w0))
             (Z.of_nat (length (fit_keys (self w0))))]).
Proof.
  intros (Hn & evs & Hlog & Hpass & Hreset & Hidle).
  split; [done|].
  eexists (evs ++ [_]). rewrite Hlog, app_assoc.
  split_and!; [done|by apply Forall_app; split; [|apply Forall_singleton]| |].
  - intros _. apply elem_of_app. right. apply list_elem_of_here.
  - intros HN. destruct (Hidle HN) as [? ?]. split; [done|].
    apply Forall_app; split; [done|]. apply Forall_singleton. by intros [].
Qed.

End Run.

Section RunProofs.
Context {C T B Sm E R : Type}.
Context `{!Cosmology C T, !Emcee B Sm E, !Random R}.
Abbreviation MCMC := (@MCMC C T Sm).
Abbreviation World := (@World C T Sm E R).
Abbreviation M := (@M C T Sm E R).
Implicit Types (s : MCMC) (w : World).

Lemma run_post_raise N resume w0 b w' e :
  sofar N w0 b (self w') (log w') ->
  (resume = false -> backend_opens w0 -> b = true) ->
  run_post N resume w0 (Raise e) w'.
Proof. intros Hs Hb. exists b. split_and!; [done|done|]. by intros _ v. Qed.

Lemma run_setup w0 :
  wp (if n_walkers (with_counter (Some 0) (self w0)) <?
          2 * Z.of_nat (length (fit_keys (with_counter (Some 0) (self w0))))
      then
        modify_self
          (with_n_walkers
             (2 * Z.of_nat (length (fit_keys (with_counter (Some 0) (self w0))))));;
        s ← get_self;
        emit (Stdout (MsgWalkers (n_walkers s)))
      else mret ())
    (fun r w1 =>
       r = Return () /\ emcee w1 = emcee w0 /\
       backend_file (self w1) = backend_file (self w0) /\
       forall N, sofar N w0 false (self w1) (log w1))
    (mkWorld (with_counter (Some 0) (self w0)) (emcee w0) (rng w0) (log w0)).
Proof.
  unfold sofar, walkers_used. simpl.
  destruct (n_walkers (self w0) <? 2 * Z.of_nat (length (fit_keys (self w0))));
    unfold wp; simpl; (split_and!; [done..|]); intros N; (split; [done|]).
  - eexists [_]. split_and!; [done|by apply Forall_singleton|done|].
    intros _. split; [done|]. apply Forall_singleton. by intros [].
  - exists []. rewrite app_nil_r. by split_and!.
Qed.

Ltac sofar_ev := apply sofar_event; [|simpl; try done|simpl; tauto].

Lemma run_sofar N pos0 resume kwargs w0 :
  wp (run N pos0 resume kwargs) (run_post N resume w0) w0.
Proof.
  unfold run. apply wp_modify_self, wp_get_self. simpl self. cbv zeta.
  apply wp_bind. eapply wp_mono; [apply run_setup|].
  intros ? w1 (-> & Hemcee & Hfile & Hsofar). specialize (Hsofar N).
  apply wp_get_self, wp_emcee_call. intros [backend|e] e1 Hopen.
  2: { apply (run_post_raise _ _ _ false); simpl.
       - by sofar_ev.
       - intros _ (bk & e' & Ho). rewrite <- Hemcee, <- Hfile in Ho. congruence. }
  match goal with |- wp _ _ ?w => set (w2 := w) end.
  assert (sofar N w0 false (self w2) (log w2)) as Hsofar2 by by simpl; sofar_ev.
  apply wp_bind.
  apply (wp_mono _ (fun r w3 =>
           exists b, sofar N w0 b (self w3) (log w3) /\
                     (resume = false -> b = true))).
  { destruct resume.
    - apply wp_emcee_call. intros [n|e] e2 _.
      2: { exists false. split; [by simpl; sofar_ev|done]. }
      apply wp_emit, wp_emcee_call. intros [samples|e] e3 _.
      2: { exists false. split; [|done]. simpl. sofar_ev. sofar_ev. by sofar_ev. }
      exists false. split; [|done]. simpl. sofar_ev. sofar_ev. by sofar_ev.
    - apply wp_get_self. apply wp_emcee_call. intros r e2 _.
      match goal with |- context [mkWorld ?a ?b ?c ?d] =>
        assert (sofar N w0 true a d) as Hsofar3
      end.
      { replace (n_walkers (self w2)) with (walkers_used (self w0))
          by by destruct Hsofar2 as [-> _].
        eapply sofar_reset, Hsofar2. }
      destruct r as [[]|e]; [|by exists true].
      exists true. split; [|done]. unfold wp.
      match goal with
      | |- sofar _ _ _ (self (generate_initial_pos ?w).2) _ =>
          eapply (sofar_step _ _ _ w)
      end; [exact Hsofar3| |].
      + apply (step_generate_initial_pos (fun ev => exists n, ev = CallRandn n)).
        by eexists.
      + intros ev [n ->]. simpl. tauto. }
  intros [pos|e] w3 (b & Hsofar3 & Hb).
  2: { eapply run_post_raise; [done|auto]. }
  apply wp_get_self, wp_emcee_call. intros [smp|e] e4 _.
  2: { eapply run_post_raise; [|auto]. simpl.
       sofar_ev; [exact Hsofar3|].
       by destruct Hsofar3 as [-> _]. }
  match goal with |- wp _ _ ?w => set (w4 := w) end.
  assert (sofar N w0 b (self w4) (log w4)) as Hsofar4.
  { simpl. sofar_ev; [exact Hsofar3|].
    by destruct Hsofar3 as [-> _]. }
  apply wp_bind. destruct (0 <? N) eqn:HN.
  - apply Z.ltb_lt in HN. apply wp_modify_self.
    match goal with |- wp _ _ ?w => set (w5 := w) end.
    assert (sofar N w0 b (self w5) (log w5)) as Hsofar5.
    { destruct Hsofar4 as (? & evs & ? & ? & ? & ?).
      split; [done|]. exists evs. split_and!; [done..|]. lia. }
    unfold wp at 1.
    assert (sofar N w0 b (self (call_run_mcmc smp pos N kwargs w5).2)
              (log (call_run_mcmc smp pos N kwargs w5).2)) as Hsofar6.
    { eapply sofar_step; [exact Hsofar5| |].
      - apply (step_call_run_mcmc
                 (fun ev => model_event ev \/ is_run_mcmc ev)); [tauto|].
        by right.
      - intros ev Hev. split; [by destruct ev, Hev|lia]. }
    destruct (call_run_mcmc smp pos N kwargs w5) as [[[]|e] w6]; simpl in *.
    + apply wp_get_self. exists b. split_and!; [done|auto|lia].
    + eapply run_post_raise; [done|auto].
  - apply Z.ltb_ge in HN. apply wp_get_self. exists b.
    split_and!; [done|auto|]. intros _ v [= <-].
    destruct Hsofar4 as (_ & evs & _ & _ & _ & Hidle). by apply Hidle.
Qed.

End RunProofs.

Section RunClaims.
Context {C T B Sm E R : Type}.
Context `{!Cosmology C T, !Emcee B Sm E, !Random R}.
Abbreviation World := (@World C T Sm E R).
Implicit Types (w : World).

(** C6.  After [run], whatever its arguments and however it ends: if the
    walker count was below twice the number of fit keys, the object holds
    exactly twice that number, and otherwise it holds the count it had; and
    that count is the one every [reset] of the backend and every
    construction of the sampler in this call was given. *)
Theorem run_corrects_walker_count N pos0 resume kwargs w :
  let ndim := Z.of_nat (length (fit_keys (self w))) in
  let w' := (run N pos0 resume kwargs w).2 in
  (n_walkers (self w) < 2 * ndim -> n_walkers (self w') = 2 * ndim) /\
  (2 * ndim <= n_walkers (self w) -> n_walkers (self w') = n_walkers (self w)) /\
  exists evs, log w' = log w ++ evs /\
    forall n d, CallReset n d ∈ evs \/ CallEnsembleSampler n d ∈ evs ->
      n = n_walkers (self w') /\ d = ndim.
Proof.
  intros ndim w'.
  destruct (run_sofar N pos0 resume kwargs w)
    as (b & (Hn & evs & Hlog & Hpass & _) & _).
  fold w' in Hn, Hlog. unfold walkers_used in *. fold ndim in Hn, Hpass.
  split_and!.
  - intros Hlt. rewrite Hn. apply Z.ltb_lt in Hlt. by rewrite Hlt.
  - intros Hge. rewrite Hn. apply Z.ltb_ge in Hge. by rewrite Hge.
  - exists evs. split; [done|]. rewrite Hn. rewrite Forall_forall in Hpass.
    intros n d [Hev|Hev]; apply (Hpass _ Hev).
Qed.

(** C10.  A call of [run] with [N <= 0] never calls [run_mcmc] and leaves
    the sampler attribute as it was, and returns that attribute when it
    returns; the walker count is corrected all the same, and when the call
    does not resume and the backend file opens, the backend is reset with
    the corrected count. *)
Theorem run_without_samples N pos0 resume kwargs w :
  N <= 0 ->
  let ndim := Z.of_nat (length (fit_keys (self w))) in
  let r := (run N pos0 resume kwargs w).1 in
  let w' := (run N pos0 resume kwargs w).2 in
  sampler (self w') = sampler (self w) /\
  (forall v, r = Return v -> v = sampler (self w)) /\
  n_walkers (self w') = walkers_used (self w) /\
  exists evs, log w' = log w ++ evs /\
    (forall ev, ev ∈ evs -> ~ is_run_mcmc ev) /\
    (resume = false -> backend_opens w ->
     CallReset (walkers_used (self w)) ndim ∈ evs).
Proof.
  intros HN ndim r w'.
  destruct (run_sofar N pos0 resume kwargs w)
    as (b & (Hn & evs & Hlog & _ & Hreset & Hidle) & Hb & Hret).
  destruct (Hidle HN) as [Hsm Hnot].
  split_and!; [done|by apply Hret|done|].
  exists evs. split_and!; [done|by apply Forall_forall|].
  intros Hres Hopen. apply Hreset. by apply Hb.
Qed.

End RunClaims.

(** ** Initial positions *)

Section InitialPositions.
Context {C T B Sm E R : Type}.
Context `{!Cosmology C T, !Emcee B Sm E, !Random R}.
Abbreviation MCMC := (@MCMC C T Sm).
Abbreviation World := (@World C T Sm E R).
Implicit Types (s : MCMC) (w : World).

Lemma fiducials_values s fids :
  fiducial_values s fids -> fiducials (fit_params s) (fit_keys s) = Return fids.
Proof.
  unfold fiducial_values. generalize (fit_keys s).
  induction 1 as [|k fid keys fids (lo & up & Hk) _ IH]; simpl; [done|].
  unfold subscript. unfold registered in Hk. rewrite Hk. simpl.
  by rewrite IH.
Qed.

Lemma jitter_zero_delta delta pos r :
  eqb delta zero = true ->
  Forall (fun x => isfinite x = true) pos ->
  Forall (fun x => isfinite x = true) r ->
  length r = length pos ->
  same_position
    (zip_with add pos (zip_with mul ((fun x => mul x delta) <$> r) pos)) pos.
Proof.
  intros Hd Hpos. revert r.
  induction Hpos as [|x pos Hx _ IH]; intros r Hr Hlen.
  { destruct r; constructor. }
  destruct r as [|y r]; [done|]. apply Forall_cons in Hr as [Hy Hr].
  simpl. constructor.
  - by apply add_mul_zero_factor.
  - apply IH; [done|]. simpl in Hlen. lia.
Qed.

Lemma one_position_zero_delta w fids :
  eqb (initial_delta (self w)) zero = true ->
  fiducial_values (self w) fids ->
  Forall (fun x => isfinite x = true) fids ->
  exists pos, (initial_pos w).1 = Return pos /\
    same_position pos fids /\ self (initial_pos w).2 = self w.
Proof.
  intros Hd Hfids Hfin. unfold initial_pos, call_randn.
  unfold mbind, M_bind, get_self, lift. simpl.
  rewrite (fiducials_values _ _ Hfids). simpl.
  pose proof (randn_length (length (fit_keys (self w))) (rng w)) as Hlen.
  pose proof (randn_finite (length (fit_keys (self w))) (rng w)) as Hr.
  destruct (randn (length (fit_keys (self w))) (rng w)) as [r rng'].
  simpl in *. eexists. split_and!; [done| |done].
  apply jitter_zero_delta; [done..|].
  rewrite Hlen. by eapply Forall2_length.
Qed.

Lemma positions_zero_delta n fids : forall w acc,
  eqb (initial_delta (self w)) zero = true ->
  fiducial_values (self w) fids ->
  Forall (fun x => isfinite x = true) fids ->
  exists pos0, (initial_pos_loop n acc w).1 = Return (acc ++ pos0) /\
    length pos0 = n /\ Forall (fun pos => same_position pos fids) pos0.
Proof.
  induction n as [|n IH]; intros w acc Hd Hfids Hfin; simpl.
  { exists []. by rewrite app_nil_r. }
  destruct (one_position_zero_delta w fids Hd Hfids Hfin)
    as (pos & Hpos & Hsame & Hself).
  unfold mbind, M_bind. destruct (initial_pos w) as [r w1]. simpl in *.
  subst r. destruct (IH w1 (acc ++ [pos])) as (pos0 & Hloop & Hlen & Hall).
  { by rewrite Hself. } { by rewrite Hself. } { done. }
  exists (pos :: pos0). rewrite Hloop, <- app_assoc. simpl.
  split_and!; [done|by rewrite Hlen|by constructor].
Qed.

(** C7, amended.  With [initial_delta] zero and finite fiducial values,
    [generate_initial_pos] returns one position per walker, and every
    position equals the fiducial values in fit-key order (as numbers: a
    fiducial [-0.0] may come back as [0.0]). *)
Theorem initial_pos_zero_delta_finite w fids :
  eqb (initial_delta (self w)) zero = true ->
  fiducial_values (self w) fids ->
  Forall (fun x => isfinite x = true) fids ->
  replicates w fids.
Proof.
  intros Hd Hfids Hfin. unfold replicates, generate_initial_pos.
  unfold mbind, M_bind, get_self. simpl.
  destruct (positions_zero_delta (Z.to_nat (n_walkers (self w))) fids
              w [] Hd Hfids Hfin) as (pos0 & Hloop & Hlen & Hall).
  by exists pos0.
Qed.

End InitialPositions.

(** ** Best fit *)

Section BestFit.
Context {C T B Sm E R : Type}.
Context `{!Cosmology C T, !Emcee B Sm E, !Random R}.
Abbreviation World := (@World C T Sm E R).
Implicit Types (w : World) (lp : list float).

Lemma argmax_from_max l : forall seen mp best,
  seen !! best = Some mp -> isnan mp = false ->
  (forall j v, seen !! j = Some v -> leb v mp = true) ->
  exists m, (seen ++ l) !! argmax_from mp best (length seen) l = Some m /\
    (isnan m = false ->
     forall j v, (seen ++ l) !! j = Some v -> leb v m = true).
Proof.
  induction l as [|x l IH]; intros seen mp best Hbest Hmp Hseen; simpl.
  { exists mp. rewrite app_nil_r. auto. }
  assert (seen ++ x :: l = (seen ++ [x]) ++ l) as Happ by by rewrite <- app_assoc.
  assert (length (seen ++ [x]) = S (length seen)) as Hlen.
  { rewrite length_app. simpl. lia. }
  destruct (leb x mp) eqn:Hle.
  - rewrite Happ, <- Hlen. apply IH; [|done|].
    + by apply lookup_app_l_Some.
    + intros j v [?|[_ Hj]]%lookup_app_Some; [by eapply Hseen|].
      destruct (j - length seen)%nat; [|done]. simpl in Hj. by injection Hj as <-.
  - destruct (isnan x) eqn:Hx.
    + exists x. split; [by rewrite list_lookup_middle|]. congruence.
    + rewrite Happ, <- Hlen. apply IH; [|done|].
      * rewrite lookup_app_r by done. by rewrite Nat.sub_diag.
      * assert (leb mp x = true) as Hmx by by apply ltb_leb, not_leb_ltb.
        intros j v [?|[_ Hj]]%lookup_app_Some.
        -- eapply leb_trans; [by eapply Hseen|done].
        -- destruct (j - length seen)%nat; [|done]. simpl in Hj.
           injection Hj as <-. by apply leb_refl.
Qed.

Lemma argmax_attains_max lp :
  lp <> [] -> exists i, argmax lp = Return i /\ attains_max lp i.
Proof.
  destruct lp as [|x l]; [done|]. intros _. simpl. eexists. split; [done|].
  assert (exists m, (x :: l) !! (if isnan x then 0%nat else argmax_from x 0 1 l)
                    = Some m /\
            (isnan m = false ->
             forall j v, (x :: l) !! j = Some v -> leb v m = true))
    as (m & Hm & Hmax).
  { destruct (isnan x) eqn:Hx.
    - exists x. split; [done|]. congruence.
    - apply (argmax_from_max l [x] x 0%nat); [done..|].
      intros [|j] v Hj; [|done]. simpl in Hj. injection Hj as <-.
      by apply leb_refl. }
  exists m. split_and!; [done| |done].
  intros j v Hj. destruct (isnan m) eqn:Hnan; [by destruct m|].
  by eapply leb_not_ltb, Hmax.
Qed.

Lemma dict_set_fresh {V} (d : dict V) k v :
  k ∉ dict_keys d -> dict_set k v d = d ++ [(k, v)].
Proof.
  induction d as [|[k' v'] d IH]; simpl; [done|].
  intros [Hne Hk]%not_elem_of_cons.
  destruct (String.eqb_spec k' k); [done|]. by rewrite IH.
Qed.

(** The loop over [enumerate(keys)] pairs the keys with the values. *)
Lemma enumerate_into_zip keys values : forall i0 d,
  NoDup keys -> (forall k, k ∈ keys -> k ∉ dict_keys d) ->
  (i0 + length keys <= length values)%nat ->
  enumerate_into i0 keys values d = Return (d ++ zip keys (drop i0 values)).
Proof.
  induction keys as [|k keys IH]; intros i0 d Hnd Hd Hlen; simpl.
  { by rewrite app_nil_r. }
  apply NoDup_cons in Hnd as [Hk Hnd]. simpl in Hlen.
  destruct (lookup_lt_is_Some_2 values i0) as [v Hv]; [lia|].
  unfold index. rewrite Hv. simpl.
  rewrite dict_set_fresh by (apply Hd, list_elem_of_here).
  rewrite IH; [|done| |lia].
  - rewrite (drop_S _ _ _ Hv). simpl. by rewrite <- app_assoc.
  - intros k' Hk'. unfold dict_keys. rewrite fmap_app. simpl.
    intros [Hin| ->%list_elem_of_singleton]%elem_of_app; [|done].
    by apply (Hd k'); [apply list_elem_of_further|].
Qed.

(** C8.  With a sampler whose flattened log-probability array is [lp] (not
    empty) and whose flattened chain is [chain], a row of it for each entry
    of [lp] and a component for each fit key, and with the fit keys as
    [set_params] leaves them (no key twice), [get_bf_params] returns the
    mapping that pairs the fit keys, in their order, with the components of
    the row of [chain] at an index where [lp] attains its maximum. *)
Theorem get_bf_params_row_of_max w smp lp chain :
  sampler (self w) = Some smp ->
  flatlnprobability smp (emcee w) = Return lp ->
  flatchain smp (emcee w) = Return chain ->
  lp <> [] -> length chain = length lp ->
  Forall (fun row => length (fit_keys (self w)) <= length row)%nat chain ->
  NoDup (fit_keys (self w)) ->
  exists whmax row,
    attains_max lp whmax /\ chain !! whmax = Some row /\
    (get_bf_params w).1 = Return (zip (fit_keys (self w)) row) /\
    dict_keys (zip (fit_keys (self w)) row) = fit_keys (self w).
Proof.
  intros Hsmp Hlp Hchain Hne Hlen Hrows Hnd.
  destruct (argmax_attains_max lp Hne) as (i & Hi & Hmax).
  destruct (lookup_lt_is_Some_2 chain i) as [row Hrow].
  { rewrite Hlen. destruct Hmax as (m & Hm & _). by eapply lookup_lt_Some. }
  pose proof (Forall_lookup_1 _ _ _ _ Hrows Hrow) as Hrowlen. simpl in Hrowlen.
  exists i, row. split_and!; [done..| |].
  - unfold get_bf_params, mbind, M_bind, get_self, get_emcee, lift. simpl.
    rewrite Hsmp. simpl. rewrite Hlp. simpl. rewrite Hi. simpl.
    rewrite Hchain. simpl. unfold index. rewrite Hrow. simpl.
    rewrite enumerate_into_zip; [done|done| |simpl; lia].
    intros k _. apply not_elem_of_nil.
  - unfold dict_keys. by rewrite fst_zip.
Qed.

End BestFit.

(** ** More on the prior *)

Section PriorEdges.
Context {C T B Sm E R : Type}.
Context `{!Cosmology C T, !Emcee B Sm E, !Random R}.
Abbreviation MCMC := (@MCMC C T Sm).
Implicit Types (s : MCMC) (theta : list float).

(** The prior is flat: a value that [lnprior] returns is [0.0] or
    [-inf]. *)
Theorem lnprior_value_zero_or_neg_inf s theta v :
  lnprior s theta = Return v -> v = zero \/ v = neg_inf.
Proof.
  unfold lnprior. generalize 0%nat.
  induction (fit_keys s) as [|k keys IH]; intros i; simpl.
  { intros [= <-]. by left. }
  destruct (subscript (fit_params s) k) as [b|]; simpl; [|done].
  destruct (index b 0) as [lower|]; simpl; [|done].
  destruct (index b 1) as [fid|]; simpl; [|done].
  destruct (index b 2) as [upper|]; simpl; [|done].
  destruct (index theta i) as [p|]; simpl; [|done].
  destruct (ltb p lower); [intros [= <-]; by right|].
  destruct (gtb p upper); [intros [= <-]; by right|].
  apply IH.
Qed.

Lemma nan_not_outside p lower upper :
  isnan p = true -> ltb p lower = false /\ gtb p upper = false.
Proof. by destruct p. Qed.

(** A vector of NaNs aligned to the fit keys is not rejected: no comparison
    with a NaN holds, and [lnprior] returns [0.0]. *)
Theorem lnprior_nan_vector_passes s theta :
  aligned s theta -> Forall (fun p => isnan p = true) theta ->
  lnprior s theta = Return zero.
Proof.
  intros Hal Hnan. apply lnprior_from_inside. intros j k Hj. simpl.
  destruct (aligned_lookup s theta j k Hal Hj) as (lo & fid & up & p & Hk & Hp).
  destruct (nan_not_outside p lo up (Forall_lookup_1 _ _ _ _ Hnan Hp)).
  by exists lo, fid, up, p.
Qed.

(** Components of [theta] beyond the number of fit keys are not looked
    at. *)
Theorem lnprior_ignores_extra_components s theta extra :
  (length (fit_keys s) <= length theta)%nat ->
  lnprior s (theta ++ extra) = lnprior s theta.
Proof.
  unfold lnprior. change (length (fit_keys s)) with (0 + length (fit_keys s))%nat.
  generalize 0%nat.
  induction (fit_keys s) as [|k keys IH]; intros i Hlen; simpl in *; [done|].
  unfold index. rewrite lookup_app_l by lia.
  by rewrite IH by lia.
Qed.

(** The loop of [lnprior] walks over the components that pass. *)
Lemma lnprior_from_skip fp theta : forall n keys i,
  (forall j, (j < n)%nat ->
     exists k lower fid upper p,
       keys !! j = Some k /\ dict_get k fp = Some [lower; fid; upper] /\
       theta !! (i + j)%nat = Some p /\
       leb lower p = true /\ leb p upper = true) ->
  lnprior_from fp i keys theta = lnprior_from fp (i + n) (drop n keys) theta.
Proof.
  induction n as [|n IH]; intros keys i Hpass.
  { by rewrite Nat.add_0_r, drop_0. }
  destruct (Hpass 0%nat) as (k & lo & fid & up & p & Hk & Hget & Hp & Hlo & Hup);
    [lia|].
  destruct keys as [|k' keys]; [done|]. simpl in Hk. injection Hk as ->.
  rewrite Nat.add_0_r in Hp. simpl.
  unfold subscript, index. rewrite Hget. simpl. rewrite Hp. simpl.
  rewrite (leb_not_ltb _ _ Hlo), gtb_ltb, (leb_not_ltb _ _ Hup).
  rewrite IH; [by rewrite Nat.add_succ_r|].
  intros j Hj.
  destruct (Hpass (S j)) as (k' & lo' & fid' & up' & p' & ? & ? & Hp' & ? & ?);
    [lia|].
  exists k', lo', fid', up', p'. split_and!; try done.
  by rewrite <- Hp', Nat.add_succ_r.
Qed.

Lemma passes_before_skip s theta i :
  passes_before s theta i ->
  lnprior s theta = lnprior_from (fit_params s) i (drop i (fit_keys s)) theta.
Proof.
  intros Hpass. unfold lnprior.
  rewrite (lnprior_from_skip _ _ i); [done|].
  intros j Hj.
  destruct (Hpass j Hj) as (p & lo & up & (k & fid & Hk & Hp & Hreg) & Hlo & Hup).
  by exists k, lo, fid, up, p.
Qed.

(** A vector with fewer components than there are fit keys raises
    [IndexError], once the loop has passed the components that are
    there. *)
Theorem lnprior_short_theta_raises s theta k b :
  passes_before s theta (length theta) ->
  fit_keys s !! length theta = Some k ->
  dict_get k (fit_params s) = Some b ->
  lnprior s theta = Raise IndexError.
Proof.
  intros Hpass Hk Hb. rewrite (passes_before_skip _ _ _ Hpass).
  rewrite (drop_S _ _ _ Hk). simpl. unfold subscript. rewrite Hb. simpl.
  unfold index. rewrite (lookup_ge_None_2 theta (length theta)) by lia.
  by destruct b as [|? [|? [|? ?]]].
Qed.

(** A fit key registered with fewer than three numbers raises [IndexError]
    as soon as the loop reaches it, whatever the vector holds there. *)
Theorem lnprior_short_bound_raises s theta i k b :
  passes_before s theta i ->
  fit_keys s !! i = Some k ->
  dict_get k (fit_params s) = Some b -> (length b < 3)%nat ->
  lnprior s theta = Raise IndexError.
Proof.
  intros Hpass Hk Hb Hlen. rewrite (passes_before_skip _ _ _ Hpass).
  rewrite (drop_S _ _ _ Hk). simpl. unfold subscript. rewrite Hb. simpl.
  destruct b as [|? [|? [|? ?]]]; simpl in *; try done. lia.
Qed.

End PriorEdges.

(** ** More on the parameter stores *)

Section ParamsMore.
Context {C T B Sm E R : Type}.
Context `{!Cosmology C T, !Emcee B Sm E, !Random R}.
Abbreviation MCMC := (@MCMC C T Sm).
Abbreviation World := (@World C T Sm E R).
Implicit Types (s : MCMC) (w : World) (params : dict pyval).


Lemma dict_set_same {V} (d : dict V) k v :
  dict_get k d = Some v -> dict_set k v d = d.
Proof.
  induction d as [|[k' v'] d IH]; simpl; [done|].
  destruct (String.eqb_spec k' k) as [->|Hne]; [by intros [= ->]|].
  intros Hget. by rewrite IH.
Qed.

(** The keys that the loop of [set_params] adds to the fit store come
    after those that were there. *)
Lemma classify_all_appends s params :
  exists added,
    dict_keys (fit_params (foldl classify s params))
      = dict_keys (fit_params s) ++ added /\
    forall k, k ∈ added ->
      (k ∉ dict_keys (fit_params s)) /\
      exists v, (k, v) ∈ params /\ is_Some (sequence_of v).
Proof.
  revert s. induction params as [|[k0 v0] params IH]; intros s.
  { exists []. rewrite app_nil_r. split; [done|]. by intros k ?%elem_of_nil. }
  simpl foldl. destruct (IH (classify s (k0, v0))) as (added & Hkeys & Hadded).
  rewrite classify_fit in Hkeys, Hadded.
  destruct (sequence_of v0) as [l|] eqn:Hv0.
  - rewrite dict_keys_set in Hkeys, Hadded. case_bool_decide as Hin.
    + exists added. split; [done|]. intros k Hk.
      destruct (Hadded k Hk) as (? & v & ? & ?). split; [done|].
      exists v. split; [by apply list_elem_of_further|done].
    + exists (k0 :: added). rewrite Hkeys, <- app_assoc. split; [done|].
      intros k [->|Hk]%elem_of_cons.
      * split; [done|]. exists v0. split; [apply list_elem_of_here|].
        by rewrite Hv0.
      * destruct (Hadded k Hk) as (Hnot & v & ? & ?). split.
        -- intros ?. apply Hnot, elem_of_app. by left.
        -- exists v. split; [by apply list_elem_of_further|done].
  - exists added. split; [done|]. intros k Hk.
    destruct (Hadded k Hk) as (? & v & ? & ?). split; [done|].
    exists v. split; [by apply list_elem_of_further|done].
Qed.

(** [set_params] never reorders the fit keys: on an object whose fit keys
    are those of its fit store, the fit keys afterwards are the old ones, in
    their order, followed by the new keys, each of which has a list or a
    tuple in [params]. *)
Theorem set_params_appends_fit_keys w params :
  fit_keys (self w) = dict_keys (fit_params (self w)) ->
  exists added,
    fit_keys (self (set_params params w).2) = fit_keys (self w) ++ added /\
    forall k, k ∈ added ->
      (k ∉ fit_keys (self w)) /\
      exists v, (k, v) ∈ params /\ is_Some (sequence_of v).
Proof.
  intros Hsync. destruct (set_params_stores w params) as (Hfit & _ & ->).
  rewrite Hfit, Hsync. apply classify_all_appends.
Qed.

Lemma classify_all_fixed s params :
  (forall k v, (k, v) ∈ params ->
     match sequence_of v with
     | Some l => dict_get k (fit_params s) = Some l
     | None => dict_get k (base_params s) = Some v
     end) ->
  fit_params (foldl classify s params) = fit_params s /\
  base_params (foldl classify s params) = base_params s.
Proof.
  revert s. induction params as [|[k0 v0] params IH]; intros s Hin; [done|].
  simpl foldl.
  assert (fit_params (classify s (k0, v0)) = fit_params s /\
          base_params (classify s (k0, v0)) = base_params s) as [Hf Hb].
  { rewrite classify_fit, classify_base.
    specialize (Hin k0 v0 (list_elem_of_here _ _)).
    destruct (sequence_of v0); by rewrite dict_set_same. }
  rewrite <- Hf, <- Hb. apply IH. intros k v Hkv. rewrite Hf, Hb.
  by apply Hin, list_elem_of_further.
Qed.

Lemma dict_get_elem_of {V} (d : dict V) k v :
  NoDup (dict_keys d) -> (k, v) ∈ d -> dict_get k d = Some v.
Proof.
  induction d as [|[k' v'] d IH]; simpl.
  { by intros _ ?%elem_of_nil. }
  intros [Hk' Hnd]%NoDup_cons [[= -> ->]|Hin]%elem_of_cons.
  - by rewrite String.eqb_refl.
  - destruct (String.eqb_spec k' k) as [->|Hne]; [|by apply IH].
    exfalso. apply Hk'. unfold dict_keys.
    by apply (list_elem_of_fmap_2 fst _ (k, v)).
Qed.

(** Giving [set_params] the same mapping a second time changes neither
    store nor the fit keys. *)
Theorem set_params_twice w params :
  NoDup (dict_keys params) ->
  let w1 := (set_params params w).2 in
  same_stores (self w1) (self (set_params params w1).2).
Proof.
  intros Hnd w1.
  destruct (set_params_stores w params) as (Hfit1 & Hbase1 & Hkeys1).
  destruct (set_params_stores w1 params) as (Hfit2 & Hbase2 & Hkeys2).
  fold w1 in Hfit1, Hbase1, Hkeys1.
  destruct (classify_all_fixed (self w1) params) as [Hf Hb].
  { intros k v Hkv. apply (dict_get_elem_of _ _ _ Hnd) in Hkv.
    rewrite Hfit1, Hbase1, classify_all_fit, classify_all_base by done.
    rewrite Hkv. simpl. by destruct (sequence_of v). }
  unfold same_stores. rewrite Hkeys2, Hfit2, Hbase2, Hf, Hb. by rewrite Hkeys1.
Qed.


Lemma classify_all_same_start s1 s2 params :
  fit_params s1 = fit_params s2 -> base_params s1 = base_params s2 ->
  fit_params (foldl classify s1 params) = fit_params (foldl classify s2 params) /\
  base_params (foldl classify s1 params) = base_params (foldl classify s2 params).
Proof.
  revert s1 s2. induction params as [|[k v] params IH]; intros s1 s2 Hf Hb; [done|].
  simpl foldl. apply IH.
  - rewrite !classify_fit, Hf. done.
  - rewrite !classify_base, Hb. done.
Qed.

(** [reset_params] followed by [set_params] leaves the stores and the fit
    keys that [set_params] leaves in an object whose stores are empty, a new
    one for instance: nothing of the earlier configuration is left. *)
Theorem reset_then_set_params w w0 params :
  fit_params (self w0) = [] -> base_params (self w0) = [] ->
  same_stores (self (set_params params w0).2)
    (self (set_params params (reset_params w).2).2).
Proof.
  intros Hf0 Hb0.
  destruct (set_params_stores w0 params) as (Hfit0 & Hbase0 & Hkeys0).
  destruct (set_params_stores (reset_params w).2 params)
    as (Hfit & Hbase & Hkeys).
  destruct (classify_all_same_start (self (reset_params w).2) (self w0) params)
    as [Hf Hb]; [by rewrite Hf0|by rewrite Hb0|].
  unfold same_stores. rewrite Hkeys, Hkeys0, Hfit, Hbase, Hfit0, Hbase0.
  by rewrite Hf, Hb.
Qed.

(** Scalars configured before the cosmology is attached reach it:
    [set_cosmology] after [set_params] hands the new cosmology a mapping
    that holds every entry of [params] that is neither a list nor a
    tuple. *)
Theorem set_cosmology_pushes_configured_scalars w params cm :
  NoDup (dict_keys params) ->
  let w1 := (set_params params w).2 in
  let w2 := (set_cosmology cm w1).2 in
  exists pushed,
    log w2 = log w1 ++ [CallSetModelParams pushed] /\
    cosmology (self w2) = Some (set_model_params pushed cm).2 /\
    (set_cosmology cm w1).1 = (set_model_params pushed cm).1 /\
    forall k v, dict_get k params = Some v -> sequence_of v = None ->
      dict_get k pushed = Some v.
Proof.
  intros Hnd w1 w2. exists (base_params (self w1)).
  destruct (set_params_stores w params) as (_ & Hbase & _). fold w1 in Hbase.
  subst w2. unfold set_cosmology, call_set_model_params.
  unfold mbind, M_bind, get_self, lift, emit, modify_self. simpl.
  destruct (set_model_params (base_params (self w1)) cm) as [[[]|e] cm'];
    simpl; (split_and!; [done..|]); intros k v Hk Hv;
    rewrite Hbase, classify_all_base by done; by rewrite Hk, Hv.
Qed.

End ParamsMore.

(** ** More on the theory generator and the posterior *)

Section ModelMore.
Context {C T B Sm E R : Type}.
Context `{!Cosmology C T, !Emcee B Sm E, !Random R}.
Abbreviation MCMC := (@MCMC C T Sm).
Abbreviation World := (@World C T Sm E R).
Abbreviation M := (@M C T Sm E R).
Abbreviation model_only := (@model_only C T Sm E R).
Implicit Types (s : MCMC) (w : World) (theta : list float).

Lemma enumerate_into_short keys values : forall i0 d,
  (i0 <= length values < i0 + length keys)%nat ->
  enumerate_into i0 keys values d = Raise IndexError.
Proof.
  induction keys as [|k keys IH]; intros i0 d Hlen; simpl in *; [lia|].
  unfold index. destruct (values !! i0) as [v|] eqn:Hv; simpl; [|done].
  apply lookup_lt_Some in Hv. apply IH. lia.
Qed.

Lemma enumerate_into_enough keys values : forall i0 d,
  (i0 + length keys <= length values)%nat ->
  exists d', enumerate_into i0 keys values d = Return d'.
Proof.
  induction keys as [|k keys IH]; intros i0 d Hlen; simpl in *; [by eexists|].
  destruct (lookup_lt_is_Some_2 values i0) as [v Hv]; [lia|].
  unfold index. rewrite Hv. simpl. apply IH. lia.
Qed.

(** A vector with fewer components than there are fit keys stops
    [generate_theory], and so [lnprob], with [IndexError] before the
    cosmology is touched: nothing has changed and nobody was called. *)
Theorem generate_theory_short_theta w theta :
  (length theta < length (fit_keys (self w)))%nat ->
  generate_theory theta w = (Raise IndexError, w) /\
  lnprob theta w = (Raise IndexError, w).
Proof.
  intros Hlen.
  assert (generate_theory theta w = (Raise IndexError, w)) as Hgen.
  { unfold generate_theory, mbind, M_bind, get_self, lift. simpl.
    by rewrite enumerate_into_short by (simpl; lia). }
  split; [done|]. unfold lnprob, mbind, M_bind. by rewrite Hgen.
Qed.

(** Without a cosmology, [generate_theory] and [lnprob] raise
    [AttributeError] for every vector that has a component for each fit
    key, and change nothing. *)
Theorem generate_theory_without_cosmology w theta :
  cosmology (self w) = None ->
  (length (fit_keys (self w)) <= length theta)%nat ->
  generate_theory theta w = (Raise AttributeError, w) /\
  lnprob theta w = (Raise AttributeError, w).
Proof.
  intros Hcm Hlen.
  destruct (enumerate_into_enough (fit_keys (self w)) theta 0 [])
    as [d Hd]; [done|].
  assert (generate_theory theta w = (Raise AttributeError, w)) as Hgen.
  { unfold generate_theory, call_set_model_params.
    unfold mbind, M_bind, get_self, lift, raise. simpl.
    by rewrite Hd, Hcm. }
  split; [done|]. unfold lnprob, mbind, M_bind. by rewrite Hgen.
Qed.

(** Only the model's full evaluation is guarded: an exception of the
    cosmology's [set_model_params], of whatever class, goes through
    [generate_theory] and [lnprob], and the model is not run. *)
Theorem set_model_params_failure_propagates w theta cm model_params e cm' :
  cosmology (self w) = Some cm ->
  enumerate_into 0 (fit_keys (self w)) theta [] = Return model_params ->
  set_model_params (to_params model_params) cm = (Raise e, cm') ->
  (generate_theory theta w).1 = Raise e /\
  (lnprob theta w).1 = Raise e /\
  log (lnprob theta w).2 = log w ++ [CallSetModelParams (to_params model_params)].
Proof.
  intros Hcm Hmp Hset.
  assert (generate_theory theta w =
            (Raise e, mkWorld (with_cosmology (Some cm') (self w)) (emcee w)
                        (rng w)
                        (log w ++ [CallSetModelParams (to_params model_params)])))
    as Hgen.
  { unfold generate_theory, call_set_model_params.
    unfold mbind, M_bind, get_self, lift, emit, modify_self. simpl.
    rewrite Hmp, Hcm, Hset. done. }
  unfold lnprob, mbind, M_bind. by rewrite Hgen.
Qed.

(** When the model run goes through, the cosmology was handed the point as
    a mapping from each fit key to its component, in fit-key order and
    without the components beyond, was run once, and its result comes back
    with the error flag off. *)
Theorem generate_theory_hands_point w theta cm cm1 cm2 results :
  let point := to_params (zip (fit_keys (self w)) theta) in
  NoDup (fit_keys (self w)) ->
  (length (fit_keys (self w)) <= length theta)%nat ->
  cosmology (self w) = Some cm ->
  set_model_params point cm = (Return (), cm1) ->
  full_run cm1 = (Return results, cm2) ->
  generate_theory theta w =
    (Return (Some results, false),
     mkWorld (with_cosmology (Some cm2) (self w)) (emcee w) (rng w)
       (log w ++ [CallSetModelParams point; CallFullRun])).
Proof.
  intros point Hnd Hlen Hcm Hset Hrun. subst point.
  assert (enumerate_into 0 (fit_keys (self w)) theta []
          = Return (zip (fit_keys (self w)) theta)) as Hmp.
  { rewrite enumerate_into_zip; [done|done| |simpl; lia].
    intros k _. apply not_elem_of_nil. }
  unfold generate_theory, call_set_model_params, call_full_run, attempt.
  unfold mbind, M_bind, get_self, lift, emit, modify_self.
  cbn [fst snd self]. rewrite Hmp, Hcm, Hset. simpl. rewrite Hrun. simpl.
  by rewrite <- app_assoc.
Qed.

Lemma generate_theory_ok_inv w theta ps_theory w' :
  model_run_succeeds w theta ps_theory w' ->
  exists point results,
    ps_theory = Some results /\
    log w' = log w ++ [CallSetModelParams point; CallFullRun].
Proof.
  unfold model_run_succeeds.
  unfold generate_theory, call_set_model_params, call_full_run, attempt.
  unfold mbind, M_bind, get_self, lift, emit, modify_self, raise. simpl.
  destruct (enumerate_into 0 (fit_keys (self w)) theta []) as [mp|]; simpl;
    [|done].
  destruct (cosmology (self w)) as [cm|]; simpl; [|done].
  destruct (set_model_params (to_params mp) cm) as [[[]|e] cm1]; simpl; [|done].
  destruct (full_run cm1) as [[results|e] cm2]; simpl.
  - intros [= <- <-]. exists (to_params mp), results. simpl.
    by rewrite <- app_assoc.
  - by destruct (isinstance_Exception e).
Qed.

(** A point outside the bounds is rejected only after the model was run on
    it: when the model run succeeds and the prior is negative infinity,
    [lnprob] returns negative infinity, and the calls it made are the
    cosmology's [set_model_params] and [full_run]. *)
Theorem lnprob_rejects_after_model_run w theta ps_theory w' :
  model_run_succeeds w theta ps_theory w' ->
  lnprior (self w) theta = Return neg_inf ->
  lnprob theta w = (Return neg_inf, w') /\
  exists point, log w' = log w ++ [CallSetModelParams point; CallFullRun].
Proof.
  intros Hrun Hprior. split; [by eapply lnprob_infinite_prior|].
  destruct (generate_theory_ok_inv _ _ _ _ Hrun) as (point & _ & _ & Hlog).
  by exists point.
Qed.

(** Negative infinity is the only value [lnprob] ever returns: it returns it
    for a failed model run and for a point outside the bounds, and raises
    otherwise. *)
Theorem lnprob_returns_only_neg_inf w theta v :
  (lnprob theta w).1 = Return v -> v = neg_inf.
Proof.
  unfold lnprob, mbind, M_bind.
  destruct (generate_theory theta w) as [[[ps err]|e] w1]; simpl; [|done].
  destruct err; simpl; [by intros [= <-]|].
  unfold get_self, lift. simpl.
  destruct (lnprior (self w1) theta) as [prior|e]; simpl; [|done].
  destruct (isfinite prior); simpl; [|by intros [= <-]].
  by destruct (likelihoods (self w1)).
Qed.

#[local] Instance model_only_preorder : PreOrder model_only.
Proof.
  split.
  - intros w. split; [by destruct (self w)|done].
  - intros w1 w2 w3 (H12 & He12 & Hr12) (H23 & He23 & Hr23). split_and!.
    + rewrite <- H12, <- H23. by destruct (self w3).
    + by rewrite He23.
    + by rewrite Hr23.
Qed.

Lemma model_only_modify c : keeps model_only (modify_self (with_cosmology c)).
Proof. intros w. split; simpl; [by destruct (self w)|done]. Qed.

Lemma model_only_emit ev : keeps model_only (emit ev).
Proof. intros w. split; simpl; [by destruct (self w)|done]. Qed.

Ltac model_only_step :=
  first
    [ apply keeps_ret | apply keeps_raise | apply keeps_lift
    | apply keeps_get_self | apply model_only_modify | apply model_only_emit
    | apply keeps_attempt
    | apply keeps_bind; [apply _| |intros ?]
    | match goal with
      | |- keeps _ (match ?x with _ => _ end) => destruct x
      end ]; try apply _.

Lemma model_only_generate_theory theta : keeps model_only (generate_theory theta).
Proof. unfold generate_theory. repeat model_only_step. Qed.

(** [generate_theory] and [lnprob] change nothing of the object but its
    cosmology attribute, and leave emcee's state and the random generator
    alone, however they end. *)
Theorem lnprob_touches_only_cosmology w theta :
  model_only w (generate_theory theta w).2 /\ model_only w (lnprob theta w).2.
Proof.
  split; [apply model_only_generate_theory|].
  revert w. change (keeps model_only (lnprob theta)).
  unfold lnprob. repeat model_only_step.
Qed.

End ModelMore.

(** ** More on the initial positions *)

Section InitialPositionsMore.
Context {C T B Sm E R : Type}.
Context `{!Cosmology C T, !Emcee B Sm E, !Random R}.
Abbreviation MCMC := (@MCMC C T Sm).
Abbreviation World := (@World C T Sm E R).
Implicit Types (s : MCMC) (w : World).


Lemma fiducials_short (fp : dict (list float)) before k b after :
  (forall k', k' ∈ before ->
     exists b', dict_get k' fp = Some b' /\ (2 <= length b')%nat) ->
  dict_get k fp = Some b -> (length b < 2)%nat ->
  fiducials fp (before ++ k :: after) = Raise IndexError.
Proof.
  intros Hbefore Hb Hlen.
  induction before as [|k0 before IH]; simpl.
  - unfold subscript, index. rewrite Hb. simpl.
    destruct b as [|x0 [|x1 b]]; simpl in *; [done..|lia].
  - destruct (Hbefore k0) as (b0 & Hb0 & Hlen0); [apply list_elem_of_here|].
    unfold subscript, index. rewrite Hb0. simpl.
    destruct b0 as [|x0 [|x1 b0]]; simpl in *; [lia..|].
    rewrite IH; [done|]. intros k' Hk'. by apply Hbefore, list_elem_of_further.
Qed.




(** With at least one walker, a fit key whose list has fewer than two
    numbers stops [generate_initial_pos] with [IndexError] before anything
    is drawn: the world is as it was. *)
Theorem generate_initial_pos_short_list w before k b after :
  0 < n_walkers (self w) ->
  fit_keys (self w) = before ++ k :: after ->
  (forall k', k' ∈ before ->
     exists b', dict_get k' (fit_params (self w)) = Some b' /\
                (2 <= length b')%nat) ->
  dict_get k (fit_params (self w)) = Some b -> (length b < 2)%nat ->
  generate_initial_pos w = (Raise IndexError, w).
Proof.
  intros Hn Hkeys Hbefore Hb Hlen.
  unfold generate_initial_pos, mbind, M_bind, get_self. simpl.
  destruct (Z.to_nat (n_walkers (self w))) as [|n] eqn:Hnat; [lia|].
  simpl. unfold initial_pos, mbind, M_bind, get_self, lift. simpl.
  by rewrite Hkeys, (fiducials_short _ _ _ _ _ Hbefore Hb Hlen).
Qed.

Lemma initial_pos_log w :
  self (initial_pos w).2 = self w /\
  exists evs, log (initial_pos w).2 = log w ++ evs /\
    Forall (fun ev => ev = CallRandn (length (fit_keys (self w)))) evs.
Proof.
  unfold initial_pos, call_randn, mbind, M_bind, get_self, lift. simpl.
  destruct (fiducials (fit_params (self w)) (fit_keys (self w))); simpl.
  - destruct (randn (length (fit_keys (self w))) (rng w)). simpl.
    split; [done|]. eexists [_]. split; [done|]. by constructor.
  - split; [done|]. exists []. by rewrite app_nil_r.
Qed.

(** Whether it returns or raises, [generate_initial_pos] leaves the object
    as it was and logs nothing but draws of [randn(ndim)]. *)
Lemma generate_initial_pos_log w :
  self (generate_initial_pos w).2 = self w /\
  exists evs, log (generate_initial_pos w).2 = log w ++ evs /\
    Forall (fun ev => ev = CallRandn (length (fit_keys (self w)))) evs.
Proof.
  unfold generate_initial_pos, mbind, M_bind, get_self. simpl.
  generalize (@nil (list float)). generalize (Z.to_nat (n_walkers (self w))).
  intros n. revert w. induction n as [|n IH]; intros w acc; simpl.
  { split; [done|]. exists []. by rewrite app_nil_r. }
  destruct (initial_pos_log w) as (Hself & evs & Hlog & Hevs).
  unfold mbind, M_bind.
  destruct (initial_pos w) as [[pos|e] w1]; simpl in *.
  - destruct (IH w1 (acc ++ [pos])) as (Hself' & evs' & Hlog' & Hevs').
    rewrite Hself in Hself', Hevs'. split; [done|].
    exists (evs ++ evs'). rewrite Hlog', Hlog, app_assoc. split; [done|].
    by apply Forall_app.
  - split; [done|]. by exists evs.
Qed.

End InitialPositionsMore.

(** ** More on the run controller *)

Section PosteriorEvents.
Context {C T B Sm E R : Type}.
Context `{!Cosmology C T, !Emcee B Sm E, !Random R}.
Abbreviation step := (@step C T Sm E R).
Context (P : event -> Prop) (HP : forall ev, posterior_event ev -> P ev).
#[local] Existing Instance step_preorder.

Ltac posterior_step :=
  first
    [ apply keeps_ret | apply keeps_raise | apply keeps_lift
    | apply keeps_get_self | apply keeps_get_emcee
    | apply step_modify_cosmology
    | apply step_emit; apply HP; exact I
    | apply keeps_attempt
    | apply keeps_bind; [apply _| |intros ?]
    | match goal with
      | |- keeps _ (match ?x with _ => _ end) => destruct x
      end ]; try apply _.

Lemma posterior_events_lnprob theta : keeps (step P) (lnprob theta).
Proof using HP. unfold lnprob. repeat posterior_step. Qed.

Lemma posterior_events_drive t : keeps (step P) (drive t).
Proof using HP.
  induction t as [r e|theta k IH]; simpl.
  - intros w. split; simpl; [by destruct (self w)|].
    exists []. by rewrite app_nil_r.
  - apply keeps_bind; [apply _| |intros r; apply IH].
    apply keeps_attempt, posterior_events_lnprob.
Qed.

Lemma posterior_events_run_mcmc smp pos0 N kwargs :
  P (CallRunMcmc pos0 N kwargs) ->
  keeps (step P) (call_run_mcmc smp pos0 N kwargs).
Proof using HP.
  intros Hrun. unfold call_run_mcmc.
  apply keeps_bind; [apply _|by apply step_emit|intros _].
  apply keeps_bind; [apply _|apply keeps_get_emcee; apply _|intros e].
  apply posterior_events_drive.
Qed.

End PosteriorEvents.

Section RunMore.
Context {C T B Sm E R : Type}.
Context `{!Cosmology C T, !Emcee B Sm E, !Random R}.
Abbreviation MCMC := (@MCMC C T Sm).
Abbreviation World := (@World C T Sm E R).
Abbreviation M := (@M C T Sm E R).
Abbreviation configuration_kept := (@configuration_kept C T Sm E R).
Implicit Types (s : MCMC) (w : World).

Lemma underway_events N resume kwargs w0 s l evs' :
  underway N resume kwargs w0 s l ->
  Forall (fun ev => run_event N resume kwargs (self w0) ev /\ ~ is_run_mcmc ev)
    evs' ->
  underway N resume kwargs w0 s (l ++ evs').
Proof.
  intros (Hn & Hk & Hf & evs & Hlog & Hevs & Hsm) Hnew.
  split_and!; [done..|]. exists (evs ++ evs'). rewrite Hlog, app_assoc.
  split_and!; [done| |].
  - apply Forall_app. split; [done|]. eapply Forall_impl; [exact Hnew|].
    by intros ev [? _].
  - intros [Hex|Hex]%Exists_app; [by apply Hsm|]. exfalso.
    apply Exists_exists in Hex as (ev & Hev & Hrun).
    rewrite Forall_forall in Hnew. by destruct (Hnew ev Hev).
Qed.

Lemma underway_event N resume kwargs w0 s l ev :
  underway N resume kwargs w0 s l ->
  run_event N resume kwargs (self w0) ev -> ~ is_run_mcmc ev ->
  underway N resume kwargs w0 s (l ++ [ev]).
Proof. intros Hu Hev Hnot. apply underway_events; [done|]. by constructor. Qed.

(** Where a call of [run] ends, in terms of its events. *)
Definition run_ends (N : Z) (resume : bool) (kwargs : dict pyval) (w0 : World)
    (r : outcome (option Sm)) (w' : World) : Prop :=
  underway N resume kwargs w0 (self w') (log w') /\
  (0 < N -> forall v, r = Return v -> is_Some v /\ v = sampler (self w')).

Lemma run_ends_raise N resume kwargs w0 w' e :
  underway N resume kwargs w0 (self w') (log w') ->
  run_ends N resume kwargs w0 (Raise e) w'.
Proof. intros Hu. split; [done|]. by intros _ v. Qed.

Lemma run_setup_underway N resume kwargs w0 :
  wp (if n_walkers (with_counter (Some 0) (self w0)) <?
          2 * Z.of_nat (length (fit_keys (with_counter (Some 0) (self w0))))
      then
        modify_self
          (with_n_walkers
             (2 * Z.of_nat (length (fit_keys (with_counter (Some 0) (self w0))))));;
        s ← get_self;
        emit (Stdout (MsgWalkers (n_walkers s)))
      else mret ())
    (fun r w1 =>
       r = Return () /\ emcee w1 = emcee w0 /\
       underway N resume kwargs w0 (self w1) (log w1))
    (mkWorld (with_counter (Some 0) (self w0)) (emcee w0) (rng w0) (log w0)).
Proof.
  unfold underway, walkers_used. simpl.
  destruct (n_walkers (self w0) <? 2 * Z.of_nat (length (fit_keys (self w0))))
    eqn:Hlt; unfold wp; simpl; (split_and!; [done..|]).
  - eexists [_]. split_and!; [done| |].
    + apply Forall_singleton. simpl. unfold walkers_used. by rewrite Hlt.
    + intros Hex. apply Exists_cons in Hex as [[]|Hex].
      by apply Exists_nil in Hex.
  - exists []. rewrite app_nil_r. split_and!; [done..|].
    by intros ?%Exists_nil.
Qed.

Ltac underway_ev := apply underway_event; [|simpl; try done|simpl; tauto].

Lemma run_underway N pos0 resume kwargs w0 :
  wp (run N pos0 resume kwargs) (run_ends N resume kwargs w0) w0.
Proof.
  unfold run. apply wp_modify_self, wp_get_self. simpl self. cbv zeta.
  apply wp_bind. eapply wp_mono; [apply (run_setup_underway N resume kwargs)|].
  intros ? w1 (-> & Hemcee & Hu1).
  apply wp_get_self, wp_emcee_call. intros [backend|e] e1 _.
  2: { apply run_ends_raise. simpl. underway_ev; [done|]. by destruct Hu1 as (_ & _ & -> & _). }
  match goal with |- wp _ _ ?w => set (w2 := w) end.
  assert (underway N resume kwargs w0 (self w2) (log w2)) as Hu2.
  { simpl. underway_ev; [done|]. by destruct Hu1 as (_ & _ & -> & _). }
  apply wp_bind.
  apply (wp_mono _ (fun r w3 => underway N resume kwargs w0 (self w3) (log w3))).
  { destruct resume.
    - apply wp_emcee_call. intros [n|e] e2 _; [|by simpl; underway_ev].
      apply wp_emit, wp_emcee_call. intros [samples|e] e3 _;
        simpl; underway_ev; underway_ev; by underway_ev.
    - apply wp_get_self. apply wp_emcee_call. intros r e2 _.
      match goal with |- context [mkWorld ?a ?b ?c ?d] =>
        assert (underway N false kwargs w0 a d) as Hu3
      end.
      { underway_ev; [done|]. by destruct Hu1 as (-> & _). }
      destruct r as [[]|e]; [|done]. unfold wp.
      match goal with
      | |- underway _ _ _ _ (self (generate_initial_pos ?w).2) _ =>
          destruct (generate_initial_pos_log w) as (-> & evs & -> & Hevs)
      end.
      apply underway_events; [done|]. eapply Forall_impl; [exact Hevs|].
      intros ev ->. simpl. destruct Hu1 as (_ & -> & _).
      split; [done|]. by intros []. }
  intros [pos|e] w3 Hu3; [|by apply run_ends_raise].
  apply wp_get_self, wp_emcee_call. intros [smp|e] e4 _.
  2: { apply run_ends_raise. simpl. underway_ev; [done|].
       by destruct Hu3 as (-> & _). }
  match goal with |- wp _ _ ?w => set (w4 := w) end.
  assert (underway N resume kwargs w0 (self w4) (log w4)) as Hu4.
  { simpl. underway_ev; [done|]. by destruct Hu3 as (-> & _). }
  apply wp_bind. destruct (0 <? N) eqn:HN.
  - apply Z.ltb_lt in HN. apply wp_modify_self.
    match goal with |- wp _ _ ?w => set (w5 := w) end.
    unfold wp at 1.
    pose proof (posterior_events_run_mcmc
                  (fun ev => posterior_event ev \/ ev = CallRunMcmc pos N kwargs)
                  (fun ev Hev => or_introl Hev) smp pos N kwargs
                  (or_intror eq_refl) w5) as Hstep.
    destruct (step_self _ _ _ Hstep) as (Hn & _ & Hsm & _ & _ & Hkeys & _).
    assert (backend_file (self (call_run_mcmc smp pos N kwargs w5).2)
            = backend_file (self w5)) as Hfile.
    { destruct Hstep as [<- _]. by destruct (self _). }
    destruct Hstep as [_ (evs' & Hlog & Hevs')].
    assert (underway N resume kwargs w0
              (self (call_run_mcmc smp pos N kwargs w5).2)
              (log (call_run_mcmc smp pos N kwargs w5).2)) as Hu6.
    { destruct Hu4 as (Hn4 & Hk4 & Hf4 & evs & Hlog4 & Hevs4 & _).
      split_and!; [by rewrite Hn|by rewrite Hkeys|by rewrite Hfile|].
      exists (evs ++ evs'). rewrite Hlog. change (log w5) with (log w4).
      rewrite Hlog4, app_assoc.
      split_and!; [done| |by rewrite Hsm].
      apply Forall_app. split; [done|]. eapply Forall_impl; [exact Hevs'|].
      intros ev [Hev| ->]; [by destruct ev as [[]| | | | | | | | | |]|done]. }
    destruct (call_run_mcmc smp pos N kwargs w5) as [[[]|e] w6]; simpl in *.
    + apply wp_get_self. split; [done|]. intros _ v [= <-].
      by rewrite Hsm.
    + by apply run_ends_raise.
  - apply Z.ltb_ge in HN. apply wp_get_self. split; [|lia].
    destruct Hu4 as (? & ? & ? & evs & ? & ? & ?). by split_and!; [..|exists evs].
Qed.

(** The calls of [run], by mode.  Resuming, it never resets the backend nor
    draws a random number; starting afresh, it never reads the stored chain
    and draws [randn(ndim)] only; the backend it opens is [backend_file];
    [reset] and the sampler get the corrected walker count and [ndim];
    [run_mcmc] gets [N] and the keyword arguments as they came; and with
    [N <= 0] neither [run_mcmc] nor the model is called. *)
Theorem run_calls_by_mode N pos0 resume kwargs w :
  exists evs,
    log (run N pos0 resume kwargs w).2 = log w ++ evs /\
    Forall (run_event N resume kwargs (self w)) evs.
Proof.
  destruct (run_underway N pos0 resume kwargs w)
    as ((_ & _ & _ & evs & Hlog & Hevs & _) & _).
  by exists evs.
Qed.

(** The sampler attribute is assigned before [run_mcmc] is called: once it
    was called the object holds a sampler, also when the call raised; and a
    call of [run] with [N > 0] that returns, returns that sampler. *)
Theorem run_keeps_sampler_of_failed_sampling N pos0 resume kwargs w :
  let r := (run N pos0 resume kwargs w).1 in
  let w' := (run N pos0 resume kwargs w).2 in
  (forall evs, log w' = log w ++ evs -> Exists is_run_mcmc evs ->
     is_Some (sampler (self w'))) /\
  (0 < N -> forall v, r = Return v -> is_Some v /\ v = sampler (self w')).
Proof.
  intros r w'.
  destruct (run_underway N pos0 resume kwargs w)
    as ((_ & _ & _ & evs & Hlog & _ & Hsm) & Hret).
  split; [|done]. fold w' in Hlog. intros evs' Hlog' Hex. apply Hsm.
  rewrite Hlog in Hlog'. by apply app_inv_head in Hlog' as ->.
Qed.

End RunMore.

(** ** What the methods leave alone *)

Section Frames.
Context {C T B Sm E R : Type}.
Context `{!Cosmology C T, !Emcee B Sm E, !Random R}.
Abbreviation MCMC := (@MCMC C T Sm).
Abbreviation World := (@World C T Sm E R).
Abbreviation M := (@M C T Sm E R).
Abbreviation configuration_kept := (@configuration_kept C T Sm E R).
Implicit Types (s : MCMC) (w : World).

#[local] Instance configuration_kept_preorder : PreOrder configuration_kept.
Proof.
  split.
  - by intros w.
  - intros w1 w2 w3 ((Hf1 & Hb1 & Hk1) & Hl1 & Hd1 & Hbf1)
      ((Hf2 & Hb2 & Hk2) & Hl2 & Hd2 & Hbf2).
    repeat split; congruence.
Qed.

Lemma configuration_kept_self w w' : self w' = self w -> configuration_kept w w'.
Proof. intros Hself. repeat split; by rewrite Hself. Qed.

Lemma configuration_kept_step P w w' : step P w w' -> configuration_kept w w'.
Proof. intros [Heq _]. repeat split; rewrite <- Heq; by destruct (self w'). Qed.

Lemma configuration_kept_counter v : keeps configuration_kept (modify_self (with_counter v)).
Proof. by intros w. Qed.

Lemma configuration_kept_walkers v :
  keeps configuration_kept (modify_self (with_n_walkers v)).
Proof. by intros w. Qed.

Lemma configuration_kept_sampler v :
  keeps configuration_kept (modify_self (with_sampler v)).
Proof. by intros w. Qed.

Lemma configuration_kept_emit ev : keeps configuration_kept (emit ev).
Proof. by intros w. Qed.

Lemma configuration_kept_emcee_call {A} ev (f : E -> outcome A * E) :
  keeps configuration_kept (emcee_call ev f).
Proof. intros w. unfold emcee_call. by destruct (f (emcee w)). Qed.

Lemma configuration_kept_initial_pos : keeps configuration_kept generate_initial_pos.
Proof.
  intros w. apply configuration_kept_self. by destruct (generate_initial_pos_log w).
Qed.

Lemma configuration_kept_run_mcmc smp pos0 N kwargs :
  keeps configuration_kept (call_run_mcmc smp pos0 N kwargs).
Proof.
  intros w. apply (configuration_kept_step (fun _ => True)).
  by apply (step_call_run_mcmc (fun _ => True)).
Qed.

Lemma step_set_cosmology cm :
  keeps (step (fun _ => True)) (set_cosmology cm : M unit).
Proof.
  unfold set_cosmology.
  apply keeps_bind; [apply step_preorder|apply step_modify_cosmology|intros _].
  apply keeps_bind;
    [apply step_preorder|apply keeps_get_self, step_preorder|intros s].
  by apply (step_call_set_model_params (fun _ => True)).
Qed.

Ltac configuration_step :=
  first
    [ apply keeps_ret | apply keeps_raise | apply keeps_lift
    | apply keeps_get_self
    | apply configuration_kept_counter | apply configuration_kept_walkers
    | apply configuration_kept_sampler | apply configuration_kept_emit
    | apply configuration_kept_emcee_call
    | apply configuration_kept_initial_pos | apply configuration_kept_run_mcmc
    | apply keeps_bind; [apply _| |intros ?]
    | match goal with
      | |- keeps _ (if ?x then _ else _) => destruct x
      end ]; try apply _.

Lemma configuration_kept_run N pos0 resume kwargs :
  keeps configuration_kept (run N pos0 resume kwargs).
Proof. unfold run. repeat configuration_step. Qed.

(** [run] writes the walker count, the counter, the sampler and, through
    the posterior, the cosmology; what was configured - the stores, the fit
    keys, the likelihoods, the jitter and the backend file - is after the
    call what it was before, however the call ends. *)
Theorem run_keeps_configuration N pos0 resume kwargs w :
  configuration_kept w (run N pos0 resume kwargs w).2.
Proof.
  revert w. change (keeps configuration_kept (run N pos0 resume kwargs)).
  unfold run. repeat configuration_step.
Qed.

Lemma get_bf_params_reads w : (get_bf_params w).2 = w.
Proof.
  unfold get_bf_params, mbind, M_bind, get_self, get_emcee, lift, raise. simpl.
  destruct (sampler (self w)) as [smp|]; simpl; [|done].
  destruct (flatlnprobability smp (emcee w)) as [lp|]; simpl; [|done].
  destruct (argmax lp) as [i|]; simpl; [|done].
  destruct (flatchain smp (emcee w)) as [chain|]; simpl; [|done].
  destruct (index chain i) as [row|]; simpl; [|done].
  by destruct (enumerate_into 0 (fit_keys (self w)) row []).
Qed.

Lemma get_bf_cosmology_reads w : (get_bf_cosmology w).2 = w.
Proof.
  unfold get_bf_cosmology, mbind, M_bind, get_self, lift, raise.
  pose proof (get_bf_params_reads w) as Hw.
  destruct (get_bf_params w) as [[bf|e] w1]; simpl in *; subst w1; [|done].
  destruct (cosmology (self w)) as [cm|]; simpl; [|done].
  by destruct (set_model_params (to_params bf) cm) as [[[]|e] cm'].
Qed.

Lemma get_bf_params_no_sampler w :
  sampler (self w) = None -> (get_bf_params w).1 = Raise AttributeError.
Proof.
  unfold get_bf_params, mbind, M_bind, get_self, raise. by intros ->.
Qed.

(** The best-fit accessors only read: [get_bf_params] and
    [get_bf_cosmology] leave the object, its cosmology included, and
    emcee's state as they were, whether they return or raise; it is a copy
    of the cosmology that is handed the best-fit parameters. *)
Theorem best_fit_accessors_read_only w :
  (get_bf_params w).2 = w /\ (get_bf_cosmology w).2 = w.
Proof.
  assert ((get_bf_params w).2 = w) as Hw.
  { unfold get_bf_params, mbind, M_bind, get_self, get_emcee, lift, raise. simpl.
    destruct (sampler (self w)) as [smp|]; simpl; [|done].
    destruct (flatlnprobability smp (emcee w)) as [lp|]; simpl; [|done].
    destruct (argmax lp) as [i|]; simpl; [|done].
    destruct (flatchain smp (emcee w)) as [chain|]; simpl; [|done].
    destruct (index chain i) as [row|]; simpl; [|done].
    by destruct (enumerate_into 0 (fit_keys (self w)) row []). }
  split; [done|].
  unfold get_bf_cosmology, mbind, M_bind, get_self, lift, raise.
  destruct (get_bf_params w) as [[bf|e] w1]; simpl in *; subst w1; [|done].
  destruct (cosmology (self w)) as [cm|]; simpl; [|done].
  by destruct (set_model_params (to_params bf) cm) as [[[]|e] cm'].
Qed.

(** [get_bf_params] raises [AttributeError] on an object without a sampler,
    and [ValueError] when the sampler has no log-probability stored. *)
Theorem get_bf_params_without_samples w :
  (sampler (self w) = None -> (get_bf_params w).1 = Raise AttributeError) /\
  (forall smp, sampler (self w) = Some smp ->
     flatlnprobability smp (emcee w) = Return [] ->
     (get_bf_params w).1 = Raise ValueError).
Proof.
  split; [apply get_bf_params_no_sampler|].
  unfold get_bf_params, mbind, M_bind, get_self, get_emcee, lift, raise.
  intros smp -> Hlp. simpl. by rewrite Hlp.
Qed.

(** A call of [run] that does not sample gives no best fit: on an object
    without a sampler, after [run] with [N <= 0], [get_bf_params] raises
    [AttributeError]. *)
Theorem no_best_fit_after_idle_run N pos0 resume kwargs w :
  N <= 0 -> sampler (self w) = None ->
  (get_bf_params (run N pos0 resume kwargs w).2).1 = Raise AttributeError.
Proof.
  intros HN Hnone.
  destruct (run_sofar N pos0 resume kwargs w)
    as (b & (_ & evs & _ & _ & _ & Hidle) & _).
  destruct (Hidle HN) as [Hsm _].
  apply get_bf_params_no_sampler. by rewrite Hsm.
Qed.

Lemma call_run_mcmc_logs smp pos0 N kwargs w :
  exists evs,
    log (call_run_mcmc smp pos0 N kwargs w).2
      = log w ++ CallRunMcmc pos0 N kwargs :: evs.
Proof.
  unfold call_run_mcmc, mbind, M_bind, emit, get_emcee. simpl.
  match goal with
  | |- context [drive ?t ?w1] =>
      destruct (step_drive (fun _ => True) (fun _ _ => I) t w1)
        as [_ (evs & Hlog & _)]
  end.
  exists evs. rewrite Hlog. simpl. by rewrite <- app_assoc.
Qed.

(** Resuming starts from the last stored step: when the backend opens, the
    chain it holds ends with the positions [last_step], the sampler is
    built and [N > 0], [run_mcmc] is called with [last_step], [N] and the
    keyword arguments. *)
Theorem run_resumes_from_last_step N pos0 kwargs w backend e1 n e2
    samples e3 last_step smp e4 :
  0 < N ->
  HDFBackend (backend_file (self w)) (emcee w) = (Return backend, e1) ->
  iteration backend e1 = (Return n, e2) ->
  get_chain backend e2 = (Return samples, e3) ->
  last samples = Some last_step ->
  EnsembleSampler (walkers_used (self w))
    (Z.of_nat (length (fit_keys (self w)))) backend e3 = (Return smp, e4) ->
  CallRunMcmc last_step N kwargs ∈ log (run N pos0 true kwargs w).2.
Proof.
  intros HN Hopen Hit Hchain Hlast Hsmp. apply Z.ltb_lt in HN.
  unfold walkers_used in Hsmp.
  unfold run, emcee_call, last_positions.
  unfold mbind, M_bind, get_self, lift, emit, modify_self. simpl.
  destruct (n_walkers (self w) <? 2 * Z.of_nat (length (fit_keys (self w))));
    simpl; rewrite Hopen; simpl; rewrite Hit; simpl; rewrite Hchain; simpl;
    rewrite Hlast; simpl; rewrite Hsmp; simpl; rewrite HN; simpl.
  all: match goal with
       | |- context [call_run_mcmc ?a ?b ?c ?d ?w1] =>
           destruct (call_run_mcmc_logs a b c d w1) as (evs & Hlog);
           destruct (call_run_mcmc a b c d w1) as [[[]|e] w6]
       end; simpl in *; rewrite Hlog.
  all: apply elem_of_app; right; apply list_elem_of_here.
Qed.

(** The invariant of the data model.  A new object is well formed and
    [reset_params] makes any object well formed; on a well-formed object
    every method leaves a well-formed object, however it ends. *)
Theorem well_formed_kept :
  (forall nwalkers delta file, well_formed (MCMC_init nwalkers delta file : MCMC)) /\
  (forall w, well_formed (self (reset_params w).2)) /\
  (forall w, well_formed (self w) ->
     (forall params, well_formed (self (set_params params w).2)) /\
     (forall f, well_formed (self (add_likelihood f w).2)) /\
     (forall cm, well_formed (self (set_cosmology cm w).2)) /\
     (forall theta, well_formed (self (generate_theory theta w).2)) /\
     (forall theta, well_formed (self (lnprob theta w).2)) /\
     well_formed (self (generate_initial_pos w).2) /\
     (forall N pos0 resume kwargs,
        well_formed (self (run N pos0 resume kwargs w).2)) /\
     well_formed (self (get_bf_params w).2) /\
     well_formed (self (get_bf_cosmology w).2)).
Proof.
  assert (forall w w', well_formed (self w) -> configuration_kept w w' ->
                       well_formed (self w')) as Hkept.
  { intros w w' (Hf & Hb & Hk) ((Hf' & Hb' & Hk') & _).
    unfold well_formed. by rewrite Hf', Hb', Hk'. }
  split_and!.
  - intros. split_and!; simpl; by try apply NoDup_nil.
  - intros w. split_and!; simpl; by try apply NoDup_nil.
  - intros w Hwf. split_and!.
    + intros params. destruct Hwf as (Hf & Hb & _).
      destruct (set_params_stores w params) as (Hfit & Hbase & Hkeys).
      split_and!; [|clear Hf|done].
      * rewrite <- Hkeys. by apply set_params_fit_keys_NoDup.
      * rewrite Hbase. clear Hfit Hbase Hkeys. revert Hb. generalize (self w).
        induction params as [|[k v] params IH]; intros s Hb; [done|].
        simpl. apply IH. rewrite classify_base.
        destruct (sequence_of v); [done|by apply dict_keys_set_NoDup].
    + intros f. by destruct Hwf as (? & ? & ?).
    + intros cm. eapply Hkept; [done|].
      apply (configuration_kept_step (fun _ => True)), step_set_cosmology.
    + intros theta. eapply Hkept; [done|].
      apply (configuration_kept_step (fun _ => True)).
      by apply (step_generate_theory (fun _ => True)).
    + intros theta. eapply Hkept; [done|].
      apply (configuration_kept_step (fun _ => True)).
      by apply (step_lnprob (fun _ => True)).
    + eapply Hkept; [done|]. apply configuration_kept_initial_pos.
    + intros N pos0 resume kwargs. eapply Hkept; [done|].
      apply configuration_kept_run.
    + by rewrite get_bf_params_reads.
    + by rewrite get_bf_cosmology_reads.
Qed.

End Frames.

(** ** The statements at work *)

Section Instances.
Import Toy.

Lemma toy_keys_NoDup (keys : list string) :
  bool_decide (NoDup keys) = true -> NoDup keys.
Proof. by intros Hd%bool_decide_eq_true. Defined.

(** [configured] with [theta = [1; 1]] inside both bounds and
    [theta = [1; 5]] above the upper bound of ["tau"]. *)
Lemma lnprior_zero_within_neg_inf_outside_witness :
  aligned (self configured) [of_Z 1; of_Z 1] /\
  aligned (self configured) [of_Z 1; of_Z 5] /\
  lnprior (self configured) [of_Z 1; of_Z 1] = Return zero /\
  lnprior (self configured) [of_Z 1; of_Z 5] = Return neg_inf.
Proof.
  assert (forall theta, length theta = 2%nat -> aligned (self configured) theta)
    as Hal.
  { intros theta Hlen. split; [done|]. intros k Hk. simpl in Hk.
    apply elem_of_cons in Hk as [->|Hk]; [by do 3 eexists|].
    apply list_elem_of_singleton in Hk as ->. by do 3 eexists. }
  split_and!; [by apply Hal..| |].
  - apply (proj1 (lnprior_zero_within_neg_inf_outside (self configured)
                    [of_Z 1; of_Z 1] (Hal [of_Z 1; of_Z 1] eq_refl))).
    intros i p lower upper (k & fid & Hi & Hp & Hk).
    destruct i as [|[|i]]; simpl in Hi, Hp; [| |done].
    + injection Hi as <-. injection Hp as <-. unfold registered in Hk.
      simpl in Hk. injection Hk as <- <- <-. done.
    + injection Hi as <-. injection Hp as <-. unfold registered in Hk.
      simpl in Hk. injection Hk as <- <- <-. done.
  - apply (proj2 (lnprior_zero_within_neg_inf_outside (self configured)
                    [of_Z 1; of_Z 5] (Hal [of_Z 1; of_Z 5] eq_refl))).
    exists 1%nat, (of_Z 5), (of_Z 0), (of_Z 4). split; [|by right].
    by exists "tau", (of_Z 1).
Defined.

(** The failing input of C2: the model run succeeds, the prior is zero and
    one likelihood is registered; the sum would be [0 + (-3)], and [lnprob]
    raises instead. *)
Example lnprob_raises_where_sum_expected :
  (generate_theory [of_Z 1; of_Z 1] scored).1 = Return (Some [of_Z 1], false) /\
  lnprior (self scored) [of_Z 1; of_Z 1] = Return zero /\
  length (likelihoods (self scored)) = 1%nat /\
  (lnprob [of_Z 1; of_Z 1] scored).1 = Raise (UnboundLocalError "like").
Proof. by vm_compute. Qed.

Lemma lnprob_accumulator_unbound_witness :
  model_run_succeeds scored [of_Z 1; of_Z 1] (Some [of_Z 1])
    (generate_theory [of_Z 1; of_Z 1] scored).2 /\
  lnprior (self scored) [of_Z 1; of_Z 1] = Return zero /\
  likelihoods (self scored) <> [] /\
  (lnprob [of_Z 1; of_Z 1] scored).1 = Raise (UnboundLocalError "like").
Proof.
  assert (model_run_succeeds scored [of_Z 1; of_Z 1] (Some [of_Z 1])
            (generate_theory [of_Z 1; of_Z 1] scored).2) as Hrun
    by by vm_compute.
  assert (likelihoods (self scored) <> []) as Hlikes by done.
  split_and!; [done..|].
  destruct (lnprob_accumulator_unbound scored [of_Z 1; of_Z 1] _ _ zero
              Hrun eq_refl eq_refl Hlikes) as [_ ->].
  reflexivity.
Defined.

(** A negative ["omega"] makes the model fail. *)
Lemma model_failure_rejects_point_witness :
  full_run_raises configured [of_Z (-1); of_Z 1] (Foreign "CosmologyError" true) /\
  (generate_theory [of_Z (-1); of_Z 1] configured).1 = Return (None, true) /\
  (lnprob [of_Z (-1); of_Z 1] configured).1 = Return neg_inf.
Proof.
  assert (full_run_raises configured [of_Z (-1); of_Z 1]
            (Foreign "CosmologyError" true)) as Hraises.
  { do 4 eexists. split_and!; vm_compute; reflexivity. }
  split; [done|].
  destruct (model_failure_rejects_point configured [of_Z (-1); of_Z 1] _
              Hraises eq_refl) as (Hgen & _ & Hprob).
  by split.
Defined.

Lemma set_params_routes_by_type_witness :
  NoDup (dict_keys params1) /\
  routed_by_type params1 (self fresh) (self (set_params params1 fresh).2).
Proof.
  assert (NoDup (dict_keys params1)) as Hnd by by apply toy_keys_NoDup.
  split; [done|]. by apply set_params_routes_by_type.
Defined.

(** C5 as stated fails here: a list of two elements is not stored as a
    base parameter. *)
Lemma set_params_short_list_not_base :
  ~ routed_by_length params_short (self (set_params params_short fresh).2).
Proof.
  intros Hrouted. specialize (Hrouted "a" (PyList [of_Z 1; of_Z 2]) eq_refl).
  vm_compute in Hrouted. discriminate.
Qed.

Lemma set_params_never_removes_witness :
  dict_get "omega" (fit_params (self configured))
    = Some [of_Z 0; of_Z 1; of_Z 2] /\
  dict_get "h" (base_params (self configured)) = Some (PyFloat (of_Z 3)) /\
  let s' := self (set_params params2 configured).2 in
  dict_get "omega" (base_params s') = Some (PyFloat (of_Z 7)) /\
  dict_get "omega" (fit_params s') = Some [of_Z 0; of_Z 1; of_Z 2] /\
  "omega" ∈ fit_keys s' /\
  dict_get "h" (fit_params s') = Some [of_Z 1; of_Z 2; of_Z 3] /\
  dict_get "h" (base_params s') = Some (PyFloat (of_Z 3)).
Proof.
  assert (NoDup (dict_keys params2)) as Hnd by by apply toy_keys_NoDup.
  split_and!; [done..|]. intros s'.
  destruct (set_params_never_removes configured params2)
    as (_ & _ & Hfit & Hbase).
  destruct (Hfit Hnd "omega" _ (PyFloat (of_Z 7)) eq_refl eq_refl eq_refl)
    as (? & ? & ?).
  destruct (Hbase Hnd "h" _ (PyList [of_Z 1; of_Z 2; of_Z 3]) _
              eq_refl eq_refl eq_refl) as (? & ? & ?).
  by split_and!.
Defined.

(** Two walkers for two fit keys become four. *)
Lemma run_corrects_walker_count_witness :
  n_walkers (self configured) < 2 * Z.of_nat (length (fit_keys (self configured))) /\
  n_walkers (self (run 5 None false [] configured).2) = 4.
Proof.
  assert (n_walkers (self configured)
          < 2 * Z.of_nat (length (fit_keys (self configured)))) as Hlt by done.
  split; [done|].
  destruct (run_corrects_walker_count 5 None false [] configured) as (Hfix & _).
  exact (Hfix Hlt).
Defined.

Lemma run_without_samples_witness :
  0 <= 0 /\ backend_opens configured /\
  let w' := (run 0 None false [] configured).2 in
  sampler (self w') = None /\
  (run 0 None false [] configured).1 = Return None /\
  n_walkers (self w') = 4 /\
  exists evs, log w' = log configured ++ evs /\
    (forall ev, ev ∈ evs -> ~ is_run_mcmc ev) /\ CallReset 4 2 ∈ evs.
Proof.
  assert (backend_opens configured) as Hopen by by do 2 eexists.
  split_and!; [done..|]. intros w'.
  destruct (run_without_samples 0 None false [] configured (Z.le_refl 0))
    as (Hsm & Hret & Hn & evs & Hlog & Hnot & Hreset).
  split_and!; [done|done|done|].
  exists evs. split_and!; [done|done|]. by apply Hreset.
Defined.

(** What that call does: it warns, opens and resets the backend, draws the
    four positions and still builds the sampler. *)
Example idle_run_log :
  log (run 0 None false [] configured).2 =
    log configured ++
    [Stdout (MsgWalkers 4); CallHDFBackend (Some "chain.h5"); CallReset 4 2;
     CallRandn 2; CallRandn 2; CallRandn 2; CallRandn 2;
     CallEnsembleSampler 4 2].
Proof. by vm_compute. Qed.

Lemma initial_pos_zero_delta_finite_witness :
  eqb (initial_delta (self configured)) zero = true /\
  fiducial_values (self configured) [of_Z 1; of_Z 1] /\
  replicates configured [of_Z 1; of_Z 1].
Proof.
  assert (fiducial_values (self configured) [of_Z 1; of_Z 1]) as Hfids.
  { repeat constructor; by do 2 eexists. }
  split_and!; [done..|].
  apply initial_pos_zero_delta_finite; [done|done|]. by repeat constructor.
Defined.

(** C7 as stated fails here: with the fiducial value infinite and no
    jitter asked for, the positions are NaN, zero times infinity. *)
Lemma initial_pos_infinite_fiducial :
  eqb (initial_delta (self unbounded)) zero = true /\
  fiducial_values (self unbounded) [inf] /\
  (generate_initial_pos unbounded).1 = Return [[nan]; [nan]] /\
  ~ replicates unbounded [inf].
Proof.
  split_and!; [done| |done|].
  - repeat constructor. by do 2 eexists.
  - intros (pos0 & Hgen & _ & Hall). vm_compute in Hgen. injection Hgen as <-.
    apply Forall_cons in Hall as [Hpos _].
    apply Forall2_cons in Hpos as [Hnan _]. discriminate.
Qed.

Lemma get_bf_params_row_of_max_witness :
  NoDup (fit_keys (self sampled)) /\
  exists whmax row,
    attains_max [of_Z (-5); of_Z (-1)] whmax /\
    [[of_Z 1; of_Z 2]; [of_Z 3; of_Z 4]] !! whmax = Some row /\
    (get_bf_params sampled).1 = Return (zip (fit_keys (self sampled)) row).
Proof.
  assert (NoDup (fit_keys (self sampled))) as Hnd by by apply toy_keys_NoDup.
  split; [done|].
  destruct (get_bf_params_row_of_max sampled (2, 2)
              [of_Z (-5); of_Z (-1)] [[of_Z 1; of_Z 2]; [of_Z 3; of_Z 4]])
    as (whmax & row & Hmax & Hrow & Hbf & _);
    [done|done|done|done|done| |done|].
  { repeat constructor. }
  by exists whmax, row.
Defined.

(** The second log-probability is the greater one, so the second row is
    the best fit. *)
Example get_bf_params_second_row :
  (get_bf_params sampled).1 = Return [("omega", of_Z 3); ("tau", of_Z 4)].
Proof. by vm_compute. Qed.


(** The further statements at work. *)

Lemma lnprior_value_zero_or_neg_inf_witness :
  lnprior (self configured) [of_Z 1; of_Z 5] = Return neg_inf /\
  (neg_inf = zero \/ neg_inf = neg_inf).
Proof.
  split; [done|].
  by apply (lnprior_value_zero_or_neg_inf (self configured) [of_Z 1; of_Z 5]).
Defined.

Lemma configured_aligned theta :
  length theta = 2%nat -> aligned (self configured) theta.
Proof.
  intros Hlen. split; [done|]. intros k Hk. simpl in Hk.
  apply elem_of_cons in Hk as [->|Hk]; [by do 3 eexists|].
  apply list_elem_of_singleton in Hk as ->. by do 3 eexists.
Defined.

Lemma lnprior_nan_vector_passes_witness :
  aligned (self configured) [nan; nan] /\
  lnprior (self configured) [nan; nan] = Return zero.
Proof.
  assert (aligned (self configured) [nan; nan]) as Hal
    by by apply configured_aligned.
  split; [done|]. apply lnprior_nan_vector_passes; [done|]. by repeat constructor.
Defined.

Lemma lnprior_ignores_extra_components_witness :
  lnprior (self configured) ([of_Z 1; of_Z 1] ++ [of_Z 9])
    = lnprior (self configured) [of_Z 1; of_Z 1].
Proof. apply lnprior_ignores_extra_components. simpl. lia. Defined.

Lemma configured_passes_first :
  passes_before (self configured) [of_Z 1] 1.
Proof.
  intros j Hj. destruct j as [|j]; [|lia].
  exists (of_Z 1), (of_Z 0), (of_Z 2). split; [|done].
  by exists "omega", (of_Z 1).
Defined.

Lemma lnprior_short_theta_raises_witness :
  passes_before (self configured) [of_Z 1] 1 /\
  lnprior (self configured) [of_Z 1] = Raise IndexError.
Proof.
  split; [apply configured_passes_first|].
  by apply (lnprior_short_theta_raises (self configured) [of_Z 1] "tau"
              [of_Z 0; of_Z 1; of_Z 4] configured_passes_first).
Defined.

Lemma lnprior_short_bound_raises_witness :
  dict_get "a" (fit_params (self single)) = Some [of_Z 1] /\
  lnprior (self single) [of_Z 1] = Raise IndexError.
Proof.
  split; [done|].
  apply (lnprior_short_bound_raises (self single) [of_Z 1] 0 "a" [of_Z 1]);
    [|done|done|simpl; lia].
  intros j Hj. lia.
Defined.

Lemma set_params_appends_fit_keys_witness :
  fit_keys (self configured) = ["omega"; "tau"] /\
  exists added,
    fit_keys (self (set_params params2 configured).2) = ["omega"; "tau"] ++ added.
Proof.
  split; [done|].
  destruct (set_params_appends_fit_keys configured params2 eq_refl)
    as (added & Hkeys & _).
  by exists added.
Defined.

Lemma set_params_twice_witness :
  NoDup (dict_keys params2) /\
  same_stores (self (set_params params2 configured).2)
    (self (set_params params2 (set_params params2 configured).2).2).
Proof.
  assert (NoDup (dict_keys params2)) as Hnd by by apply toy_keys_NoDup.
  split; [done|]. by apply set_params_twice.
Defined.

Lemma reset_then_set_params_witness :
  same_stores (self (set_params params2 fresh).2)
    (self (set_params params2 (reset_params configured).2).2).
Proof. by apply reset_then_set_params. Defined.

Lemma set_cosmology_pushes_configured_scalars_witness :
  NoDup (dict_keys params1) /\
  exists pushed,
    log (set_cosmology [] (set_params params1 fresh).2).2
      = log (set_params params1 fresh).2 ++ [CallSetModelParams pushed] /\
    dict_get "h" pushed = Some (PyFloat (of_Z 3)).
Proof.
  assert (NoDup (dict_keys params1)) as Hnd by by apply toy_keys_NoDup.
  split; [done|].
  destruct (set_cosmology_pushes_configured_scalars fresh params1 [] Hnd)
    as (pushed & Hlog & _ & _ & Hscalars).
  exists pushed. split; [done|]. by apply Hscalars.
Defined.

Lemma generate_theory_short_theta_witness :
  (length [of_Z 1] < length (fit_keys (self configured)))%nat /\
  lnprob [of_Z 1] configured = (Raise IndexError, configured).
Proof.
  assert (length [of_Z 1] < length (fit_keys (self configured)))%nat as Hlen
    by (simpl; lia).
  split; [done|]. by apply generate_theory_short_theta.
Defined.

Lemma generate_theory_without_cosmology_witness :
  cosmology (self unattached) = None /\
  lnprob [of_Z 1; of_Z 1] unattached = (Raise AttributeError, unattached).
Proof.
  split; [done|].
  apply generate_theory_without_cosmology; [done|]. simpl. lia.
Defined.

Lemma set_model_params_failure_propagates_witness :
  (generate_theory [of_Z (-1); of_Z 1] guarded).1
    = Raise (Foreign "ValueError" true) /\
  (lnprob [of_Z (-1); of_Z 1] guarded).1 = Raise (Foreign "ValueError" true).
Proof.
  destruct (set_model_params_failure_propagates guarded [of_Z (-1); of_Z 1]
              (Checked [("h", PyFloat (of_Z 3))])
              [("omega", of_Z (-1)); ("tau", of_Z 1)]
              (Foreign "ValueError" true)
              (Checked [("h", PyFloat (of_Z 3))]))
    as (Hgen & Hprob & _); [by vm_compute..|].
  by split.
Defined.

Lemma generate_theory_hands_point_witness :
  NoDup (fit_keys (self configured)) /\
  (generate_theory [of_Z 1; of_Z 1; of_Z 9] configured).1
    = Return (Some [of_Z 1], false) /\
  log (generate_theory [of_Z 1; of_Z 1; of_Z 9] configured).2 =
    log configured ++
    [CallSetModelParams [("omega", PyFloat (of_Z 1)); ("tau", PyFloat (of_Z 1))];
     CallFullRun].
Proof.
  assert (NoDup (fit_keys (self configured))) as Hnd by by apply toy_keys_NoDup.
  split; [done|].
  rewrite (generate_theory_hands_point configured [of_Z 1; of_Z 1; of_Z 9]
             [("h", PyFloat (of_Z 3))]
             [("h", PyFloat (of_Z 3)); ("omega", PyFloat (of_Z 1));
              ("tau", PyFloat (of_Z 1))]
             [("h", PyFloat (of_Z 3)); ("omega", PyFloat (of_Z 1));
              ("tau", PyFloat (of_Z 1))]
             [of_Z 1] Hnd);
    [done|simpl; lia|done|done|done].
Defined.

Lemma lnprob_rejects_after_model_run_witness :
  lnprior (self configured) [of_Z 1; of_Z 5] = Return neg_inf /\
  (lnprob [of_Z 1; of_Z 5] configured).1 = Return neg_inf.
Proof.
  split; [done|].
  destruct (lnprob_rejects_after_model_run configured [of_Z 1; of_Z 5]
              (Some [of_Z 1]) (generate_theory [of_Z 1; of_Z 5] configured).2)
    as (-> & _); done.
Defined.

Lemma lnprob_returns_only_neg_inf_witness :
  (lnprob [of_Z 1; of_Z 5] configured).1 = Return neg_inf /\ neg_inf = neg_inf.
Proof.
  split; [done|].
  by apply (lnprob_returns_only_neg_inf configured [of_Z 1; of_Z 5]).
Defined.



Lemma generate_initial_pos_short_list_witness :
  0 < n_walkers (self single) /\
  generate_initial_pos single = (Raise IndexError, single).
Proof.
  split; [done|].
  apply (generate_initial_pos_short_list single [] "a" [of_Z 1] []);
    [done|done| |done|simpl; lia].
  by intros k' ?%elem_of_nil.
Defined.

(** Five steps asked of the toy sampler: the first evaluation of the
    posterior raises, and the sampler is stored all the same. *)
Lemma run_keeps_sampler_of_failed_sampling_witness :
  (run 5 None false [] scored).1 = Raise (UnboundLocalError "like") /\
  is_Some (sampler (self (run 5 None false [] scored).2)).
Proof.
  split; [by vm_compute|].
  destruct (run_keeps_sampler_of_failed_sampling 5 None false [] scored)
    as (Hsm & _).
  eapply Hsm; [by vm_compute|].
  do 8 apply Exists_cons_tl. by apply Exists_cons_hd.
Defined.

Lemma get_bf_params_without_samples_witness :
  sampler (self configured) = None /\
  (get_bf_params configured).1 = Raise AttributeError.
Proof.
  split; [done|]. by apply (proj1 (get_bf_params_without_samples configured)).
Defined.

Lemma no_best_fit_after_idle_run_witness :
  0 <= 0 /\ sampler (self configured) = None /\
  (get_bf_params (run 0 None false [] configured).2).1 = Raise AttributeError.
Proof.
  split_and!; [done..|]. by apply no_best_fit_after_idle_run.
Defined.

Lemma run_resumes_from_last_step_witness :
  0 < 5 /\
  CallRunMcmc [[of_Z 1; of_Z 2]; [of_Z 3; of_Z 4]] 5 []
    ∈ log (run 5 None true [] sampled).2.
Proof.
  split; [done|].
  by apply (run_resumes_from_last_step 5 None [] sampled "chain.h5"
              (emcee sampled) 1 (emcee sampled)
              [[[of_Z 1; of_Z 2]; [of_Z 3; of_Z 4]]] (emcee sampled)
              [[of_Z 1; of_Z 2]; [of_Z 3; of_Z 4]] (4, 2) (emcee sampled)).
Defined.

Lemma configured_well_formed : well_formed (self configured).
Proof.
  split_and!; [by apply toy_keys_NoDup..|done].
Defined.

Lemma well_formed_kept_witness :
  well_formed (self configured) /\
  well_formed (self (set_params params2 configured).2) /\
  well_formed (self (run 5 None false [] configured).2).
Proof.
  split; [apply configured_well_formed|].
  destruct (@well_formed_kept model spectra string (Z * Z) store nat _ _ _)
    as (_ & _ & Hkept).
  destruct (Hkept configured configured_well_formed)
    as (Hset & _ & _ & _ & _ & _ & Hrun & _).
  split; [apply Hset|apply Hrun].
Defined.

End Instances.
